(** * Movement and collision core of the coursework scene viewer

    A shallow embedding of [source/coursework.cpp]: the room bounds, the
    collision predicates [checkCollision] and [objectCollision], the
    per-frame camera update [keyboardInput] and the body of the render
    loop as far as it touches the camera.

    The program computes in C++ [float].  Those values are modelled
    exactly, as IEEE 754 binary32 numbers ([spec_float] at precision 24
    and maximal exponent 128) with round-to-nearest-even arithmetic, so
    every function below evaluates on concrete inputs to the value the
    program computes. *)

From Stdlib Require Import ZArith List String Bool Lia Permutation.
From Stdlib Require Import Floats.SpecFloat.
Import ListNotations.

(** ** Single-precision numbers *)

Module F32.

Definition prec : Z := 24.
Definition emax : Z := 128.

Definition float : Type := spec_float.

Definition add : float -> float -> float := SFadd prec emax.
Definition sub : float -> float -> float := SFsub prec emax.
Definition mul : float -> float -> float := SFmul prec emax.
Definition div : float -> float -> float := SFdiv prec emax.
Definition sqrt : float -> float := SFsqrt prec emax.

(** The comparison operators of C++ on [float]; each is false as soon as
    one operand is a NaN. *)
Definition ltb : float -> float -> bool := SFltb.
Definition leb : float -> float -> bool := SFleb.
Definition geb (a b : float) : bool := SFleb b a.

(** [std::min(a, b)] is [(b < a) ? b : a] and [std::max(a, b)] is
    [(a < b) ? b : a]. *)
Definition fmin (a b : float) : float := if ltb b a then b else a.
Definition fmax (a b : float) : float := if ltb a b then b else a.

(** The literal denoting [m * 2^e], rounded to binary32. *)
Definition of_dyadic (m e : Z) : float :=
  binary_normalize prec emax m e false.
Definition of_Z (n : Z) : float := of_dyadic n 0.

Definition is_nan (a : float) : bool :=
  match a with S754_nan => true | _ => false end.

Definition is_zero (a : float) : bool :=
  match a with S754_zero _ => true | _ => false end.

Definition is_finite (a : float) : bool :=
  match a with S754_zero _ | S754_finite _ _ _ => true | _ => false end.

(** A datum is a binary32 number when it is not finite or its mantissa
    and exponent are the canonical ones of the format. *)
Definition valid (a : float) : bool := valid_binary prec emax a.

(** [0 <= a]: a zero, a positive number or positive infinity. *)
Definition nonneg (a : float) : bool := leb (S754_zero false) a.

(** Two numbers denote the same value when they are the same datum or
    are both zeros (of either sign). *)
Definition same_value (a b : float) : Prop :=
  a = b \/ (is_zero a = true /\ is_zero b = true).

End F32.

Declare Scope f32_scope.
Delimit Scope f32_scope with f32.
Infix "+" := F32.add : f32_scope.
Infix "-" := F32.sub : f32_scope.
Infix "*" := F32.mul : f32_scope.
Infix "<?" := F32.ltb : f32_scope.
Infix "<=?" := F32.leb : f32_scope.
Infix ">=?" := F32.geb : f32_scope.

(** The literals of the program.  Each is exactly representable in
    binary32 except [0.3f] and [0.0005f], which are the binary32 numbers
    nearest to three tenths and to five ten-thousandths; the fractions
    [0.6f] and [0.8f] serve in the examples. *)
Module Lit.

Definition p0_0 : F32.float := F32.of_Z 0.
Definition n0_0 : F32.float := S754_zero true.
Definition p0_0625 : F32.float := F32.of_dyadic 1 (-4).
Definition p0_125 : F32.float := F32.of_dyadic 1 (-3).
Definition p0_1875 : F32.float := F32.of_dyadic 3 (-4).
Definition p0_5 : F32.float := F32.of_dyadic 1 (-1).
Definition n0_5 : F32.float := F32.of_dyadic (-1) (-1).
Definition p1_0 : F32.float := F32.of_Z 1.
Definition n1_0 : F32.float := F32.of_Z (-1).
Definition p1_5 : F32.float := F32.of_dyadic 3 (-1).
Definition n1_5 : F32.float := F32.of_dyadic (-3) (-1).
Definition p2_0 : F32.float := F32.of_Z 2.
Definition n2_0 : F32.float := F32.of_Z (-2).
Definition p2_5 : F32.float := F32.of_dyadic 5 (-1).
Definition p2_75 : F32.float := F32.of_dyadic 11 (-2).
Definition p3_0 : F32.float := F32.of_Z 3.
Definition n3_0 : F32.float := F32.of_Z (-3).
Definition n4_0 : F32.float := F32.of_Z (-4).
Definition p4_5 : F32.float := F32.of_dyadic 9 (-1).
Definition n4_5 : F32.float := F32.of_dyadic (-9) (-1).
Definition p5_0 : F32.float := F32.of_Z 5.
Definition n5_0 : F32.float := F32.of_Z (-5).
Definition p10_0 : F32.float := F32.of_Z 10.
Definition p0_3 : F32.float := S754_finite false 10066330 (-25).
Definition p0_0005 : F32.float := S754_finite false 8589935 (-34).
Definition p0_6 : F32.float := S754_finite false 10066330 (-24).
Definition n0_6 : F32.float := S754_finite true 10066330 (-24).
Definition n0_8 : F32.float := S754_finite true 13421773 (-24).

End Lit.
Import Lit.

(** ** Vectors ([glm::vec3]) *)

Record vec3 : Type := mkVec3 { vx : F32.float; vy : F32.float; vz : F32.float }.

Module Vec3.
Local Open Scope f32_scope.

(** [v * s], [s * v], [a + b] and [a - b] act on each component. *)
Definition scale_r (v : vec3) (s : F32.float) : vec3 :=
  mkVec3 (vx v * s) (vy v * s) (vz v * s).
Definition scale_l (s : F32.float) (v : vec3) : vec3 :=
  mkVec3 (s * vx v) (s * vy v) (s * vz v).
Definition add (a b : vec3) : vec3 :=
  mkVec3 (vx a + vx b) (vy a + vy b) (vz a + vz b).
Definition sub (a b : vec3) : vec3 :=
  mkVec3 (vx a - vx b) (vy a - vy b) (vz a - vz b).

(** [glm::dot] multiplies componentwise and sums left to right;
    [glm::length] is the square root of the dot product of a vector with
    itself. *)
Definition dot (a b : vec3) : F32.float :=
  (vx a * vx b + vy a * vy b) + vz a * vz b.
Definition length (v : vec3) : F32.float := F32.sqrt (dot v v).

Definition set_y (v : vec3) (y : F32.float) : vec3 := mkVec3 (vx v) y (vz v).

Definition is_finite (v : vec3) : bool :=
  F32.is_finite (vx v) && F32.is_finite (vy v) && F32.is_finite (vz v).

Definition valid (v : vec3) : bool :=
  F32.valid (vx v) && F32.valid (vy v) && F32.valid (vz v).

Definition nonneg (v : vec3) : bool :=
  F32.nonneg (vx v) && F32.nonneg (vy v) && F32.nonneg (vz v).

End Vec3.

(** ** Scene objects and room bounds *)

Record Object : Type := mkObject {
  position : vec3;
  rotation : vec3;
  scale : vec3;
  angle : F32.float;
  name : string
}.

Record boxBound : Type := mkBound {
  xMin : F32.float; xMax : F32.float;
  yMin : F32.float; yMax : F32.float;
  zMin : F32.float; zMax : F32.float
}.

(** The six slabs of the room shell
    (xMin, xMax, yMin, yMax, zMin, zMax). *)
Definition floorBound     : boxBound := mkBound n5_0 p5_0 n5_0 n4_5 n5_0 p5_0.
Definition ceilingBound   : boxBound := mkBound n5_0 p5_0 p2_5 p3_0 n5_0 p5_0.
Definition backWallBound  : boxBound := mkBound n5_0 p5_0 n4_5 p2_5 n5_0 n4_5.
Definition frontWallBound : boxBound := mkBound n5_0 p5_0 n4_5 p2_5 p4_5 p5_0.
Definition leftWallBound  : boxBound := mkBound n5_0 n4_5 n4_5 p2_5 n5_0 p5_0.
Definition rightWallBound : boxBound := mkBound p4_5 p5_0 n4_5 p2_5 n5_0 p5_0.

Definition wallBounds : list boxBound :=
  [backWallBound; frontWallBound; leftWallBound; rightWallBound].

Definition roomBounds : list boxBound :=
  floorBound :: ceilingBound :: wallBounds.

Definition cameraRadius : F32.float := p0_5.

(** ** Collision predicates *)

Section Collision.
Local Open Scope f32_scope.

(** The six inclusive comparisons of the room-bound loop body. *)
Definition inBound (p : vec3) (b : boxBound) : bool :=
  (vx p >=? xMin b) && (vx p <=? xMax b) &&
  (vy p >=? yMin b) && (vy p <=? yMax b) &&
  (vz p >=? zMin b) && (vz p <=? zMax b).

(** One axis of the closest-point computation,
    [std::max(centre - half, std::min(c, centre + half))]. *)
Definition closestAxis (c centre half : F32.float) : F32.float :=
  F32.fmax (centre - half) (F32.fmin c (centre + half)).

Definition closestPoint (sphereCenter boxCenter boxScale : vec3) : vec3 :=
  let halfSize := Vec3.scale_r boxScale p0_5 in
  mkVec3 (closestAxis (vx sphereCenter) (vx boxCenter) (vx halfSize))
         (closestAxis (vy sphereCenter) (vy boxCenter) (vy halfSize))
         (closestAxis (vz sphereCenter) (vz boxCenter) (vz halfSize)).

Definition objectCollision (sphereCenter : vec3) (sphereRadius : F32.float)
    (boxCenter boxScale : vec3) : bool :=
  let closest := closestPoint sphereCenter boxCenter boxScale in
  let distance := Vec3.length (Vec3.sub sphereCenter closest) in
  distance <? sphereRadius.

(** The first loop of [checkCollision]: return on the first bound that
    contains the position. *)
Fixpoint inAnyBound (p : vec3) (bounds : list boxBound) : bool :=
  match bounds with
  | [] => false
  | b :: rest => if inBound p b then true else inAnyBound p rest
  end.

Definition isCube (o : Object) : bool := String.eqb (name o) "cube".

(** The second loop: only objects named "cube" reach the sphere-box
    test. *)
Fixpoint hitsAnyCube (p : vec3) (objects : list Object) : bool :=
  match objects with
  | [] => false
  | o :: rest =>
      if isCube o then
        if objectCollision p cameraRadius (position o) (scale o) then true
        else hitsAnyCube p rest
      else hitsAnyCube p rest
  end.

Definition checkCollision (p : vec3) (objects : list Object) : bool :=
  if inAnyBound p roomBounds then true else hitsAnyCube p objects.

End Collision.

(** ** The scene assembled by [main] *)

Section Scene.

(** [Maths::radians] is declared in [common/maths.hpp]; it only feeds the
    [angle] field, which no collision test reads, and is taken as a
    parameter. *)
Variable radians : F32.float -> F32.float.

Definition cubePositions : list vec3 := [
  mkVec3 n3_0 n4_5 n3_0;
  mkVec3 n1_5 n4_5 n2_0;
  mkVec3 p0_0 n4_5 n1_5;
  mkVec3 p1_5 n4_5 n1_0;
  mkVec3 p3_0 n4_5 n0_5;
  mkVec3 n3_0 n4_5 p0_5;
  mkVec3 n1_5 n4_5 p1_0;
  mkVec3 p0_0 n4_5 p1_5;
  mkVec3 p1_5 n4_5 p2_0;
  mkVec3 n1_0 n4_5 p0_0;
  mkVec3 p3_0 n4_5 p2_5
].

Definition cubeAt (pos : vec3) : Object :=
  mkObject pos (mkVec3 p1_0 p1_0 p1_0) (mkVec3 p0_3 p0_3 p0_3)
           (radians p0_0) "cube".

Definition planeScale : vec3 := mkVec3 p0_5 p0_5 p0_5.
Definition axisX : vec3 := mkVec3 p1_0 p0_0 p0_0.
Definition axisZ : vec3 := mkVec3 p0_0 p0_0 p1_0.

Definition floorObject : Object :=
  mkObject (mkVec3 p0_0 n5_0 p0_0) axisX planeScale p0_0 "floor".
Definition ceilingObject : Object :=
  mkObject (mkVec3 p0_0 p2_75 p0_0) axisX planeScale
           (radians (F32.of_Z 180)) "ceiling".
Definition backWallObject : Object :=
  mkObject (mkVec3 p0_0 n0_5 n5_0) axisX planeScale
           (radians (F32.of_Z 90)) "wall".
Definition rightWallObject : Object :=
  mkObject (mkVec3 p5_0 n0_5 p0_0) axisZ planeScale
           (radians (F32.of_Z 90)) "wall".
Definition leftWallObject : Object :=
  mkObject (mkVec3 n5_0 n0_5 p0_0) axisZ planeScale
           (radians (F32.of_Z (-90))) "wall".
Definition frontWallObject : Object :=
  mkObject (mkVec3 n0_0 n0_5 p5_0) axisX planeScale
           (radians (F32.of_Z (-90))) "wall".

(** The [objects] vector in the order [main] pushes its entries. *)
Definition sceneObjects : list Object :=
  map cubeAt cubePositions ++
  [floorObject; ceilingObject;
   backWallObject; rightWallObject; leftWallObject; frontWallObject].

End Scene.

(** ** Camera and program state *)

(** Modelled from the spec: the [Camera] class lives in
    [common/camera.hpp]; its state is the Camera State of the data model:
    the eye, the derived target and basis vectors, and the two look
    angles. *)
Record Camera : Type := mkCamera {
  eye : vec3;
  target : vec3;
  front : vec3;
  right : vec3;
  up : vec3;
  yaw : F32.float;
  pitch : F32.float
}.

Definition set_eye (c : Camera) (e : vec3) : Camera :=
  mkCamera e (target c) (front c) (right c) (up c) (yaw c) (pitch c).

(** The globals of the program and the close flag of its window. *)
Record State : Type := mkState {
  camera : Camera;
  previousTime : F32.float;
  deltaTime : F32.float;
  shouldClose : bool
}.

Definition set_camera (st : State) (c : Camera) : State :=
  mkState c (previousTime st) (deltaTime st) (shouldClose st).

(** What [glfwGetKey] answers during one call of [keyboardInput]:
    whether each key is pressed. *)
Record Keys : Type := mkKeys {
  keyEscape : bool;
  keyW : bool;
  keyS : bool;
  keyA : bool;
  keyD : bool
}.

(** The height [-4.0f] the camera is stuck to. *)
Definition floorLevel : F32.float := n4_0.

Section Movement.
Local Open Scope f32_scope.

(** The displacement of one key, [5.0f * deltaTime * direction]. *)
Definition stride (dt : F32.float) (direction : vec3) : vec3 :=
  Vec3.scale_l (p5_0 * dt) direction.

(** The four conditional updates of [camera.eye], in source order. *)
Definition displaced (k : Keys) (dt : F32.float) (c : Camera) : vec3 :=
  let e0 := eye c in
  let e1 := if keyW k then Vec3.add e0 (stride dt (front c)) else e0 in
  let e2 := if keyS k then Vec3.sub e1 (stride dt (front c)) else e1 in
  let e3 := if keyA k then Vec3.sub e2 (stride dt (right c)) else e2 in
  let e4 := if keyD k then Vec3.add e3 (stride dt (right c)) else e3 in
  e4.

(** The position handed to [checkCollision]: the displaced eye after
    [camera.eye.y = -4.0f]. *)
Definition candidate (k : Keys) (dt : F32.float) (c : Camera) : vec3 :=
  Vec3.set_y (displaced k dt c) floorLevel.

Definition keyboardInput (k : Keys) (objects : list Object) (st : State)
    : State :=
  let st := if keyEscape k
            then mkState (camera st) (previousTime st) (deltaTime st) true
            else st in
  let originalPos := eye (camera st) in
  let moved := set_eye (camera st) (displaced k (deltaTime st) (camera st)) in
  let locked := set_eye moved (Vec3.set_y (eye moved) floorLevel) in
  if checkCollision (eye locked) objects
  then set_camera st (set_eye locked originalPos)
  else set_camera st locked.

(** The timer update at the head of the render loop. *)
Definition updateTimer (time : F32.float) (st : State) : State :=
  mkState (camera st) time (time - previousTime st) (shouldClose st).

(** Modelled from the spec: [Camera::calculateCameraVectors] lives in
    [common/camera.hpp]; it re-derives front, right and up from yaw and
    pitch.  Its trigonometry is outside this file, so the basis it
    produces is an input of the step. *)
Record Basis : Type := mkBasis { bFront : vec3; bRight : vec3; bUp : vec3 }.

(** [mouseInput]: the cursor offsets from the window centre, already
    converted to [float], turn the camera. *)
Definition mouseInput (dx dy : F32.float) (b : Basis) (st : State) : State :=
  let c := camera st in
  set_camera st
    (mkCamera (eye c) (target c) (bFront b) (bRight b) (bUp b)
              (yaw c + p0_0005 * dx) (pitch c + p0_0005 * dy)).

(** [camera.target = camera.eye + camera.front]. *)
Definition lookAhead (st : State) : State :=
  let c := camera st in
  set_camera st
    (mkCamera (eye c) (Vec3.add (eye c) (front c)) (front c) (right c) (up c)
              (yaw c) (pitch c)).

End Movement.

(** What one iteration of the render loop reads from the outside. *)
Record FrameInput : Type := mkFrameInput {
  fiTime : F32.float;
  fiKeys : Keys;
  fiLookX : F32.float;
  fiLookY : F32.float;
  fiBasis : Basis
}.

(** The body of the render loop, drawing left out. *)
Definition frame (inp : FrameInput) (objects : list Object) (st : State)
    : State :=
  let st1 := updateTimer (fiTime inp) st in
  let st2 := keyboardInput (fiKeys inp) objects st1 in
  let st3 := mouseInput (fiLookX inp) (fiLookY inp) (fiBasis inp) st2 in
  lookAhead st3.

Definition initialEye : vec3 := mkVec3 p0_0 n4_0 p4_5.
Definition initialTarget : vec3 := mkVec3 p2_0 p2_0 p0_0.

(** Modelled from the spec: the constructor of [Camera], in
    [common/camera.hpp], stores its first argument as the eye and its
    second as the target, and fixes the remaining camera fields.  The
    program starts with [Camera camera(eye, target)] and both timers at
    zero. *)
Definition initial (st : State) : Prop :=
  eye (camera st) = initialEye /\
  target (camera st) = initialTarget /\
  previousTime st = p0_0 /\ deltaTime st = p0_0 /\
  shouldClose st = false.

(** The states at the head of the render loop; the loop runs while the
    window has not been asked to close. *)
Inductive reachable (objects : list Object) : State -> Prop :=
| reach_initial : forall st, initial st -> reachable objects st
| reach_frame : forall st inp,
    reachable objects st -> shouldClose st = false ->
    reachable objects (frame inp objects st).

(** ** The wording of the specification *)

Section SpecWording.
Local Open Scope f32_scope.

(** [pointInRoomBounds]: the position falls within any of the fixed
    room-bound boxes. *)
Definition pointInRoomBounds (p : vec3) : bool :=
  existsb (inBound p) roomBounds.

(** The sphere-box test of the camera against one object. *)
Definition cameraHits (p : vec3) (o : Object) : bool :=
  objectCollision p cameraRadius (position o) (scale o).

(** Clamping a value into the interval from [lo] to [hi]. *)
Definition clampInto (v lo hi : F32.float) : F32.float :=
  if v <? lo then lo else if hi <? v then hi else v.

(** The distance between two points as binary32 arithmetic gives it:
    the square root of the sum of the squared coordinate differences,
    every operation rounded to nearest. *)
Definition roundedDistance (a b : vec3) : F32.float :=
  let dx := vx a - vx b in
  let dy := vy a - vy b in
  let dz := vz a - vz b in
  F32.sqrt ((dx * dx + dy * dy) + dz * dz).

(** [sphereIntersectsBox] as the specification words it, written out on
    the coordinates: half-extents, per-axis clamp, distance strictly
    below the radius. *)
Definition sphereIntersectsBox (sphereCenter : vec3) (sphereRadius : F32.float)
    (boxCenter boxScale : vec3) : bool :=
  let hx := vx boxScale * p0_5 in
  let hy := vy boxScale * p0_5 in
  let hz := vz boxScale * p0_5 in
  let closest :=
    mkVec3
      (clampInto (vx sphereCenter) (vx boxCenter - hx) (vx boxCenter + hx))
      (clampInto (vy sphereCenter) (vy boxCenter - hy) (vy boxCenter + hy))
      (clampInto (vz sphereCenter) (vz boxCenter - hz) (vz boxCenter + hz)) in
  roundedDistance sphereCenter closest <? sphereRadius.

(** The low and high faces of an object's box. *)
Definition boxLow (boxCenter boxScale : vec3) : vec3 :=
  Vec3.sub boxCenter (Vec3.scale_r boxScale p0_5).
Definition boxHigh (boxCenter boxScale : vec3) : vec3 :=
  Vec3.add boxCenter (Vec3.scale_r boxScale p0_5).

(** A box is well formed when, on every axis, its low face does not lie
    above its high face. *)
Definition wellFormedBox (boxCenter boxScale : vec3) : bool :=
  let lo := boxLow boxCenter boxScale in
  let hi := boxHigh boxCenter boxScale in
  (vx lo <=? vx hi) && (vy lo <=? vy hi) && (vz lo <=? vz hi).

(** A box holds its own centre when the centre is finite and lies, on
    every axis, between the low and the high face. *)
Definition holdsCentre (boxCenter boxScale : vec3) : bool :=
  let lo := boxLow boxCenter boxScale in
  let hi := boxHigh boxCenter boxScale in
  Vec3.is_finite boxCenter &&
  (vx lo <=? vx boxCenter) && (vx boxCenter <=? vx hi) &&
  (vy lo <=? vy boxCenter) && (vy boxCenter <=? vy hi) &&
  (vz lo <=? vz boxCenter) && (vz boxCenter <=? vz hi).

(** A box is proper when its centre has finite binary32 coordinates and
    every component of its scale is at least zero ([0 <= s], which a NaN
    does not satisfy). *)
Definition properBox (boxCenter boxScale : vec3) : bool :=
  Vec3.valid boxCenter && Vec3.is_finite boxCenter && Vec3.nonneg boxScale.

End SpecWording.

(** ** Inputs of the worked examples *)

Definition originPoint : vec3 := mkVec3 p0_0 p0_0 p0_0.
Definition unitScale : vec3 := mkVec3 p1_0 p1_0 p1_0.
Definition farPoint : vec3 := mkVec3 p10_0 p10_0 p10_0.

(** One unit along x: a sphere of radius one half centred there touches
    the unit box at the origin. *)
Definition tangentPoint : vec3 := mkVec3 p1_0 p0_0 p0_0.
Definition worldUp : vec3 := mkVec3 p0_0 p1_0 p0_0.

(** A unit cube at the origin, mirrored along x. *)
Definition mirroredCube : Object :=
  mkObject originPoint worldUp (mkVec3 n1_0 p1_0 p1_0) p0_0 "cube".

(** A unit cube at the origin. *)
Definition unitCube : Object :=
  mkObject originPoint worldUp unitScale p0_0 "cube".

Definition noKeys : Keys := mkKeys false false false false false.
Definition onlyW : Keys := mkKeys false true false false false.

Definition cameraAt (e f : vec3) : Camera :=
  mkCamera e initialTarget f (mkVec3 p1_0 p0_0 p0_0) worldUp p0_0 p0_0.

Definition stateAt (e f : vec3) (dt : F32.float) : State :=
  mkState (cameraAt e f) p0_0 dt false.

(** The start of the session, facing the back wall. *)
Definition startState : State :=
  stateAt initialEye (mkVec3 p0_0 p0_0 n1_0) p0_0.

(** At the start position, facing the back wall, one second per frame. *)
Definition forwardState : State :=
  stateAt initialEye (mkVec3 p0_0 p0_0 n1_0) p1_0.

(** At the start position, facing the front wall, a sixteenth of a
    second per frame. *)
Definition intoWallState : State :=
  stateAt initialEye (mkVec3 p0_0 p0_0 p1_0) p0_0625.

(** In the middle of the room, looking upwards. *)
Definition lookingUpState : State :=
  stateAt (mkVec3 p0_0 n4_0 p0_0) (mkVec3 p0_0 p0_6 n0_8) p0_125.

(** In the middle of the room, looking down at the floor. *)
Definition lookingDownState : State :=
  stateAt (mkVec3 p0_0 n4_0 p0_0) (mkVec3 p0_0 n0_8 n0_6) p0_1875.

(** ** Further notions *)

(** Some coordinate of the vector is a NaN. *)
Definition hasNaN (v : vec3) : bool :=
  F32.is_nan (vx v) || F32.is_nan (vy v) || F32.is_nan (vz v).

(** Both vectors have the same value on every coordinate. *)
Definition sameValues (a b : vec3) : Prop :=
  F32.same_value (vx a) (vx b) /\ F32.same_value (vy a) (vy b) /\
  F32.same_value (vz a) (vz b).

(** [a <= 0]: a zero, a negative number or negative infinity. *)
Definition nonpos (a : F32.float) : bool := F32.leb a (S754_zero false).

(** A number that is a NaN, a zero, or positive. *)
Definition notNegative (x : F32.float) : Prop :=
  match x with
  | S754_nan | S754_zero _ => True
  | S754_infinity s | S754_finite s _ _ => s = false
  end.

(** The sphere centre is finite and lies, on every axis, between the
    low and the high face of the box, faces included. *)
Definition insideBox (c boxCenter boxScale : vec3) : bool :=
  let lo := boxLow boxCenter boxScale in
  let hi := boxHigh boxCenter boxScale in
  Vec3.is_finite c &&
  F32.leb (vx lo) (vx c) && F32.leb (vx c) (vx hi) &&
  F32.leb (vy lo) (vy c) && F32.leb (vy c) (vy hi) &&
  F32.leb (vz lo) (vz c) && F32.leb (vz c) (vz hi).

(** The box that encloses the six room bounds. *)
Definition inOuterBox (p : vec3) : bool :=
  F32.leb n5_0 (vx p) && F32.leb (vx p) p5_0 &&
  F32.leb n5_0 (vy p) && F32.leb (vy p) p3_0 &&
  F32.leb n5_0 (vz p) && F32.leb (vz p) p5_0.

(** The open room the six bounds enclose. *)
Definition inOpenRoom (p : vec3) : bool :=
  F32.ltb n4_5 (vx p) && F32.ltb (vx p) p4_5 &&
  F32.ltb n4_5 (vy p) && F32.ltb (vy p) p2_5 &&
  F32.ltb n4_5 (vz p) && F32.ltb (vz p) p4_5.

(** None of the four movement keys is pressed. *)
Definition noMoveKey (k : Keys) : bool :=
  negb (keyW k || keyS k || keyA k || keyD k).

(** A point with a NaN coordinate. *)
Definition nanPoint : vec3 := mkVec3 S754_nan p0_0 p0_0.

(** At the start position, facing the front wall, one second per frame. *)
Definition leapState : State :=
  stateAt initialEye (mkVec3 p0_0 p0_0 p1_0) p1_0.

(** ** Notions of the distance analysis *)

(** The two data are the same constructor with the same fields. *)
Definition sameDatum (a b : F32.float) : bool :=
  match a, b with
  | S754_zero s, S754_zero s' => Bool.eqb s s'
  | S754_infinity s, S754_infinity s' => Bool.eqb s s'
  | S754_nan, S754_nan => true
  | S754_finite s m e, S754_finite s' m' e' =>
      Bool.eqb s s' && Pos.eqb m m' && Z.eqb e e'
  | _, _ => false
  end.

(** The point with integer coordinates [x], [y], [z]. *)
Definition gridPoint (x y z : Z) : vec3 :=
  mkVec3 (F32.of_Z x) (F32.of_Z y) (F32.of_Z z).

(** Clamping an integer into the interval from [lo] to [hi]. *)
Definition clampZ (v lo hi : Z) : Z :=
  if (v <? lo)%Z then lo else if (hi <? v)%Z then hi else v.

(** The integers from [lo] on, [n] of them. *)
Definition rangeZ (lo : Z) (n : nat) : list Z :=
  map (fun i => (Z.of_nat i + lo)%Z) (seq 0 n).

(** The checks behind the integer grid: on integer data the closest
    point, the coordinate difference and the length come out as the
    integers of exact arithmetic. *)
Definition gridAxisOK (c b h : Z) : bool :=
  sameDatum (closestAxis (F32.of_Z c) (F32.of_Z b)
                         (F32.mul (F32.of_Z (2 * h)) p0_5))
            (F32.of_Z (clampZ c (b - h) (b + h))).

Definition gridDifferenceOK (c q : Z) : bool :=
  sameDatum (F32.sub (F32.of_Z c) (F32.of_Z q)) (F32.of_Z (c - q)).

Definition gridLengthOK (x y z : Z) : bool :=
  let n := (x * x + y * y + z * z)%Z in
  let k := Z.sqrt n in
  if (k * k =? n)%Z
  then sameDatum (Vec3.length (gridPoint x y z)) (F32.of_Z k)
  else true.

(** The value of a binary32 number in units of [2^-149], the spacing of
    the smallest numbers of the format; every finite number is an
    integer there. *)
Definition exactValue (a : F32.float) : option Z :=
  match a with
  | S754_zero _ => Some 0%Z
  | S754_finite s m e =>
      if (-149 <=? e)%Z
      then Some (cond_Zopp s (Z.pos m * 2 ^ (e + 149)))%Z
      else None
  | _ => None
  end.

(** Whether the Euclidean distance between two points is strictly below
    [r], decided in exact integer arithmetic on the squares; defined
    when the coordinates and [r] are finite. *)
Definition euclideanBelow (a b : vec3) (r : F32.float) : option bool :=
  match exactValue (vx a), exactValue (vy a), exactValue (vz a),
        exactValue (vx b), exactValue (vy b), exactValue (vz b),
        exactValue r with
  | Some ax, Some ay, Some az, Some bx, Some by_, Some bz, Some rv =>
      Some ((0 <? rv)%Z &&
            ((ax - bx) * (ax - bx) + (ay - by_) * (ay - by_)
             + (az - bz) * (az - bz) <? rv * rv)%Z)
  | _, _, _, _, _, _, _ => None
  end.

(** A sphere far along x with a radius that reaches the unit box, both
    beyond the square root of the largest binary32 number. *)
Definition hugePoint : vec3 := mkVec3 (F32.of_dyadic 1 64) p0_0 p0_0.
Definition hugeRadius : F32.float := F32.of_dyadic 1 100.

(** A sphere next to the origin with a radius smaller than its distance
    from it, both below the square root of the smallest binary32
    number. *)
Definition tinyPoint : vec3 := mkVec3 (F32.of_dyadic 1 (-80)) p0_0 p0_0.
Definition tinyRadius : F32.float := F32.of_dyadic 1 (-100).

(** A box shrunk to its centre, and a box of side two mirrored on every
    axis. *)
Definition zeroScale : vec3 := mkVec3 p0_0 p0_0 p0_0.
Definition invertedScale : vec3 := mkVec3 n2_0 n2_0 n2_0.

(** Two units along x. *)
Definition twoAlongX : vec3 := mkVec3 p2_0 p0_0 p0_0.

(** ** Notions of the rounding analysis *)

Module RoundSpec.
Local Open Scope Z_scope.

(** The exponent binary32 assigns to a number of magnitude [e]. *)
Definition fexp32 (e : Z) : Z := fexp F32.prec F32.emax e.

(** After [k] single shifts of the mantissa [N], the record holds the
    quotient by [2^k], and its two bits are clear exactly when the
    division is exact. *)
Definition shifted (N k : Z) (x : shr_record) : Prop :=
  shr_m x = N / 2 ^ k /\
  (orb (shr_r x) (shr_s x) = false <-> N mod 2 ^ k = 0).

(** The last step of [binary_round_aux]: a second alignment of the
    rounded mantissa, then the overflow test. *)
Definition finish (sx : bool) (m1 e1 : Z) : spec_float :=
  let n2 := Z.max 0 (fexp32 (Zdigits2 m1 + e1) - e1) in
  match m1 / 2 ^ n2 with
  | Z0 => S754_zero sx
  | Zpos m => if e1 + n2 <=? 104 then S754_finite sx m (e1 + n2)
              else S754_infinity sx
  | Zneg _ => S754_nan
  end.

(** The number is not a NaN and carries the sign [s]. *)
Definition has_sign (s : bool) (x : spec_float) : Prop :=
  match x with
  | S754_zero s' | S754_infinity s' | S754_finite s' _ _ => s' = s
  | S754_nan => False
  end.

End RoundSpec.

(** * Properties *)

(** ** The literals *)

Module LitFacts.

(** The literals that are not dyadic are the correctly rounded
    quotients, as a C++ compiler reads them. *)
Lemma rounded_literals :
  p0_3 = F32.div (F32.of_Z 3) (F32.of_Z 10) /\
  p0_0005 = F32.div (F32.of_Z 5) (F32.of_Z 10000) /\
  p0_6 = F32.div (F32.of_Z 6) (F32.of_Z 10) /\
  n0_6 = F32.div (F32.of_Z (-6)) (F32.of_Z 10) /\
  n0_8 = F32.div (F32.of_Z (-8)) (F32.of_Z 10).
Proof. repeat split; vm_compute; reflexivity. Qed.

(** Every literal is a binary32 number. *)
Lemma literals_valid :
  forallb F32.valid
    [p0_0; n0_0; p0_0625; p0_125; p0_1875; p0_5; n0_5; p1_0; n1_0; p1_5;
     n1_5; p2_0; n2_0; p2_5; p2_75; p3_0; n3_0; n4_0; p4_5; n4_5; p5_0;
     n5_0; p10_0; p0_3; p0_0005; p0_6; n0_6; n0_8] = true.
Proof. vm_compute; reflexivity. Qed.

End LitFacts.

(** ** The order on binary32 numbers *)

Module F32Order.

(** Case analysis on the exponent and mantissa comparisons that
    [SFcompare] performs on two finite numbers. *)
Ltac fold_pos_compare :=
  repeat match goal with
  | |- context [PosDef.Pos.compare_cont Eq ?m ?n] =>
      change (PosDef.Pos.compare_cont Eq m n) with (Pos.compare m n)
  | H : context [PosDef.Pos.compare_cont Eq ?m ?n] |- _ =>
      change (PosDef.Pos.compare_cont Eq m n) with (Pos.compare m n) in H
  end.

Ltac split_compare :=
  fold_pos_compare;
  match goal with
  | |- context [Z.compare ?a ?b] => destruct (Z.compare_spec a b)
  | H : context [Z.compare ?a ?b] |- _ => destruct (Z.compare_spec a b)
  | |- context [Pos.compare ?a ?b] => destruct (Pos.compare_spec a b)
  | H : context [Pos.compare ?a ?b] |- _ => destruct (Pos.compare_spec a b)
  end.

Ltac order_cases :=
  simpl in *; try discriminate; try reflexivity;
  repeat match goal with s : bool |- _ => destruct s end;
  simpl in *; try discriminate; try reflexivity;
  repeat (split_compare; simpl in *; subst;
          try discriminate; try reflexivity; try lia);
  try congruence.

Ltac by_cases3 a b c :=
  unfold F32.leb, F32.ltb, F32.geb, SFleb, SFltb;
  destruct a as [?|?| |? ? ?], b as [?|?| |? ? ?], c as [?|?| |? ? ?];
  order_cases.

Ltac by_cases2 a b :=
  unfold F32.leb, F32.ltb, F32.geb, SFleb, SFltb;
  destruct a as [?|?| |? ? ?], b as [?|?| |? ? ?];
  order_cases.

Local Open Scope f32_scope.

Lemma ltb_irrefl (a : F32.float) : (a <? a) = false.
Proof.
  unfold F32.ltb, SFltb. destruct a as [s|s| |s m e]; order_cases.
Qed.

Lemma leb_refl (a : F32.float) : F32.is_nan a = false -> (a <=? a) = true.
Proof.
  unfold F32.leb, SFleb. destruct a as [s|s| |s m e]; order_cases.
Qed.

Lemma leb_not_ltb (a b : F32.float) : (a <=? b) = true -> (b <? a) = false.
Proof. by_cases2 a b. Qed.

Lemma ltb_not_ltb (a b : F32.float) : (a <? b) = true -> (b <? a) = false.
Proof. by_cases2 a b. Qed.

Lemma ltb_leb (a b : F32.float) : (a <? b) = true -> (a <=? b) = true.
Proof. by_cases2 a b. Qed.

(** [a < b] and [b <= c] give [a < c]. *)
Lemma ltb_leb_trans (a b c : F32.float) :
  (a <? b) = true -> (b <=? c) = true -> (a <? c) = true.
Proof. by_cases3 a b c. Qed.

Lemma leb_ltb_trans (a b c : F32.float) :
  (a <=? b) = true -> (b <? c) = true -> (a <? c) = true.
Proof. by_cases3 a b c. Qed.

Lemma leb_trans (a b c : F32.float) :
  (a <=? b) = true -> (b <=? c) = true -> (a <=? c) = true.
Proof. by_cases3 a b c. Qed.

Lemma leb_not_nan_l (a b : F32.float) : (a <=? b) = true -> F32.is_nan a = false.
Proof. destruct a; try reflexivity. discriminate. Qed.

Lemma leb_not_nan_r (a b : F32.float) : (a <=? b) = true -> F32.is_nan b = false.
Proof. destruct a, b; try reflexivity; discriminate. Qed.

Lemma ltb_not_nan_l (a b : F32.float) : (a <? b) = true -> F32.is_nan a = false.
Proof. destruct a; try reflexivity. discriminate. Qed.

Lemma ltb_not_nan_r (a b : F32.float) : (a <? b) = true -> F32.is_nan b = false.
Proof. destruct a, b; try reflexivity; discriminate. Qed.

(** The order is total on numbers that are not NaN. *)
Lemma not_ltb_leb (a b : F32.float) :
  F32.is_nan a = false -> F32.is_nan b = false ->
  (a <? b) = false -> (b <=? a) = true.
Proof. by_cases2 a b. Qed.

(** Numbers that compare equal denote the same value. *)
Lemma leb_antisym (a b : F32.float) :
  (a <=? b) = true -> (b <=? a) = true -> F32.same_value a b.
Proof.
  unfold F32.same_value. by_cases2 a b; auto.
Qed.

Lemma same_value_sym (a b : F32.float) :
  F32.same_value a b -> F32.same_value b a.
Proof. intros [->|[? ?]]; [left|right]; auto. Qed.

(** Subtracting numbers of the same value gives differences whose
    squares coincide. *)
Lemma sub_square_same_value (c a b : F32.float) :
  F32.same_value a b -> (c - a) * (c - a) = (c - b) * (c - b).
Proof.
  intros [->|[Ha Hb]]; [reflexivity|].
  destruct a as [sa| | |]; try discriminate.
  destruct b as [sb| | |]; try discriminate.
  destruct c as [sc|sc| |sc mc ec]; simpl; try reflexivity.
  destruct sc, sa, sb; reflexivity.
Qed.

(** A finite number minus itself is a zero. *)
Lemma sub_diag_zero (a : F32.float) :
  F32.is_finite a = true -> F32.is_zero (a - a) = true.
Proof.
  destruct a as [s| | |s m e]; try discriminate; intros _.
  - destruct s; reflexivity.
  - unfold F32.sub, SFsub. rewrite Z.min_id.
    unfold shl_align. rewrite Z.sub_diag. cbn [fst].
    reflexivity.
Qed.

Lemma sub_same_value_zero (a b : F32.float) :
  F32.is_finite a = true -> F32.same_value a b -> F32.is_zero (a - b) = true.
Proof.
  intros Hf [<-|[Ha Hb]]; [apply sub_diag_zero; exact Hf|].
  destruct a as [sa| | |]; try discriminate.
  destruct b as [sb| | |]; try discriminate.
  destruct sa, sb; reflexivity.
Qed.

(** The length of a vector of zeros is a zero, hence below the camera
    radius. *)
Lemma zero_length_below_radius (v : vec3) :
  F32.is_zero (vx v) = true -> F32.is_zero (vy v) = true ->
  F32.is_zero (vz v) = true ->
  (Vec3.length v <? cameraRadius) = true.
Proof.
  destruct v as [[a| | |] [b| | |] [c| | |]]; simpl; try discriminate.
  intros _ _ _. destruct a, b, c; reflexivity.
Qed.

End F32Order.

(** ** Rounding in binary32 *)

Module Rounding.
Import RoundSpec.
Local Open Scope Z_scope.

Lemma fexp32_eq (e : Z) : fexp32 e = Z.max (e - 24) (-149).
Proof. reflexivity. Qed.

(** The number of binary digits of a mantissa. *)
Lemma digits2_pos_bounds (m : positive) :
  2 ^ (Zpos (digits2_pos m) - 1) <= Zpos m < 2 ^ Zpos (digits2_pos m).
Proof.
  induction m as [p IH|p IH|]; cbn [digits2_pos].
  - rewrite Pos2Z.inj_succ.
    replace (Z.succ (Zpos (digits2_pos p)) - 1) with (Z.succ (Zpos (digits2_pos p) - 1)) by lia.
    rewrite !Z.pow_succ_r by lia. lia.
  - rewrite Pos2Z.inj_succ.
    replace (Z.succ (Zpos (digits2_pos p)) - 1) with (Z.succ (Zpos (digits2_pos p) - 1)) by lia.
    rewrite !Z.pow_succ_r by lia. lia.
  - simpl. lia.
Qed.

Lemma Zdigits2_bounds (m : Z) :
  0 < m -> 2 ^ (Zdigits2 m - 1) <= m < 2 ^ Zdigits2 m.
Proof.
  destruct m as [|p|p]; try lia. intros _. apply digits2_pos_bounds.
Qed.

Lemma Zdigits2_nonneg (m : Z) : 0 <= Zdigits2 m.
Proof. destruct m; simpl; lia. Qed.

Lemma Zdigits2_pos (m : Z) : 0 < m -> 0 < Zdigits2 m.
Proof. destruct m; simpl; lia. Qed.

(** A number below a power of two has at most that many digits, and a
    number that reaches a power of two has more. *)
Lemma Zdigits2_le_of_lt_pow (m k : Z) :
  0 < m -> 0 <= k -> m < 2 ^ k -> Zdigits2 m <= k.
Proof.
  intros Hm Hk Hlt. destruct (Zdigits2_bounds m Hm) as [Hlo _].
  destruct (Z.le_gt_cases (Zdigits2 m) k) as [|Hgt]; [assumption|].
  assert (2 ^ k <= 2 ^ (Zdigits2 m - 1)) by (apply Z.pow_le_mono_r; lia).
  lia.
Qed.

Lemma Zdigits2_gt_of_pow_le (m k : Z) :
  0 <= k -> 2 ^ k <= m -> k < Zdigits2 m.
Proof.
  intros Hk Hle.
  assert (Hm : 0 < m) by (pose proof (Z.pow_pos_nonneg 2 k); lia).
  destruct (Zdigits2_bounds m Hm) as [_ Hhi].
  destruct (Z.lt_ge_cases k (Zdigits2 m)) as [|Hge]; [assumption|].
  assert (2 ^ Zdigits2 m <= 2 ^ k)
    by (apply Z.pow_le_mono_r; pose proof (Zdigits2_nonneg m); lia).
  lia.
Qed.

Lemma Zdigits2_mono (m n : Z) : 0 < m -> m <= n -> Zdigits2 m <= Zdigits2 n.
Proof.
  intros Hm Hle.
  destruct (Zdigits2_bounds m Hm) as [Hlo _].
  pose proof (Zdigits2_pos m Hm).
  assert (Zdigits2 m - 1 < Zdigits2 n)
    by (apply Zdigits2_gt_of_pow_le; lia).
  lia.
Qed.

Lemma Zdigits2_mul_pow (m k : Z) :
  0 < m -> 0 <= k -> Zdigits2 (m * 2 ^ k) = Zdigits2 m + k.
Proof.
  intros Hm Hk.
  destruct (Zdigits2_bounds m Hm) as [Hlo Hhi].
  pose proof (Zdigits2_pos m Hm) as Hd.
  assert (Hp : 0 < 2 ^ k) by (apply Z.pow_pos_nonneg; lia).
  assert (Hmk : 0 < m * 2 ^ k) by lia.
  apply Z.le_antisymm.
  - apply Zdigits2_le_of_lt_pow; [lia|lia|].
    rewrite Z.pow_add_r by lia. nia.
  - assert (Zdigits2 m - 1 + k < Zdigits2 (m * 2 ^ k)); [|lia].
    apply Zdigits2_gt_of_pow_le; [lia|].
    rewrite Z.pow_add_r by lia. nia.
Qed.


(** *** Shifting a mantissa to the right *)

Lemma shr_1_fields (x : shr_record) :
  0 <= shr_m x ->
  shr_m (shr_1 x) = shr_m x / 2 /\
  shr_r (shr_1 x) = Z.odd (shr_m x) /\
  shr_s (shr_1 x) = orb (shr_r x) (shr_s x).
Proof.
  destruct x as [m r s]. cbn [shr_m shr_r shr_s]. intros Hm.
  destruct m as [|[p|p|]|p]; try lia; cbn [shr_1 shr_m shr_r shr_s].
  - repeat split; reflexivity.
  - repeat split; try reflexivity.
    rewrite Pos2Z.inj_xI. apply Z.div_unique with 1; lia.
  - repeat split; try reflexivity.
    rewrite Pos2Z.inj_xO. apply Z.div_unique with 0; lia.
  - repeat split; reflexivity.
Qed.

Lemma shifted_step (N k : Z) (x : shr_record) :
  0 <= N -> 0 <= k -> shifted N k x -> shifted N (k + 1) (shr_1 x).
Proof.
  intros HN Hk [Hm Hb].
  assert (Hp : 0 < 2 ^ k) by (apply Z.pow_pos_nonneg; lia).
  assert (Hm0 : 0 <= shr_m x) by (rewrite Hm; apply Z.div_pos; lia).
  destruct (shr_1_fields x Hm0) as (Em & Er & Es).
  unfold shifted. rewrite Z.pow_add_r, Z.pow_1_r by lia.
  split.
  - rewrite Em, Hm. apply Zdiv_Zdiv; lia.
  - rewrite Er, Es, Z.rem_mul_r by lia.
    pose proof (Z.mod_pos_bound N (2 ^ k) Hp) as B1.
    pose proof (Z.mod_pos_bound (N / 2 ^ k) 2 ltac:(lia)) as B2.
    rewrite Hm, orb_false_iff, Hb.
    rewrite <- Z.negb_even, negb_false_iff, Z.even_spec.
    split.
    + intros [He H0]. destruct He as [q Hq]. rewrite H0, Hq.
      replace (2 * q) with (q * 2) by lia. rewrite Z.mod_mul by lia. lia.
    + intros H. split; [|nia].
      exists (N / 2 ^ k / 2).
      pose proof (Z.div_mod (N / 2 ^ k) 2 ltac:(lia)). nia.
Qed.

Lemma shifted_iter (N : Z) (p : positive) :
  0 <= N -> forall (k : Z) (x : shr_record),
  0 <= k -> shifted N k x -> shifted N (k + Zpos p) (iter_pos shr_1 p x).
Proof.
  intros HN. induction p as [p IH|p IH|]; intros k x Hk Hx; cbn [iter_pos].
  - replace (k + Zpos p~1) with (k + 1 + Zpos p + Zpos p) by lia.
    apply IH; [lia|]. apply IH; [lia|]. apply shifted_step; assumption.
  - replace (k + Zpos p~0) with (k + Zpos p + Zpos p) by lia.
    apply IH; [lia|]. apply IH; assumption.
  - apply shifted_step; assumption.
Qed.

Lemma shifted_start (N : Z) : shifted N 0 (Build_shr_record N false false).
Proof.
  unfold shifted. cbn [shr_m shr_r shr_s]. rewrite Z.pow_0_r, Z.div_1_r, Z.mod_1_r.
  split; [reflexivity|]. split; reflexivity.
Qed.

Lemma shr_shifted (N e n : Z) :
  0 <= N ->
  shifted N (Z.max 0 n) (fst (shr (Build_shr_record N false false) e n)) /\
  snd (shr (Build_shr_record N false false) e n) = e + Z.max 0 n.
Proof.
  intros HN. destruct n as [|p|p]; cbn [shr fst snd].
  - split; [apply shifted_start|simpl; lia].
  - replace (Z.max 0 (Zpos p)) with (0 + Zpos p) by lia. split; [|lia].
    apply shifted_iter; [assumption|lia|apply shifted_start].
  - split; [apply shifted_start|simpl; lia].
Qed.

(** Rounding to nearest stays between the quotient and its successor,
    and is the quotient when the division was exact. *)
Lemma round_nearest_even_bounds (N k : Z) (x : shr_record) :
  shifted N k x ->
  N / 2 ^ k <= round_nearest_even (shr_m x) (loc_of_shr_record x) <= N / 2 ^ k + 1 /\
  (N mod 2 ^ k = 0 ->
   round_nearest_even (shr_m x) (loc_of_shr_record x) = N / 2 ^ k).
Proof.
  intros [Hm Hb]. destruct x as [m r s]. cbn [shr_m shr_r shr_s] in *.
  subst m. split.
  - destruct r, s; cbn [loc_of_shr_record round_nearest_even]; try lia.
    destruct (Z.even _); lia.
  - intros H0. apply Hb in H0. apply orb_false_iff in H0 as [-> ->].
    reflexivity.
Qed.


(** *** The shape of a rounded result *)

Lemma binary_round_aux_exact (sx : bool) (M e : Z) :
  0 <= M ->
  exists m1 : Z,
    let n := Z.max 0 (fexp32 (Zdigits2 M + e) - e) in
    (M / 2 ^ n <= m1 <= M / 2 ^ n + 1) /\
    (M mod 2 ^ n = 0 -> m1 = M / 2 ^ n) /\
    binary_round_aux F32.prec F32.emax sx M e loc_Exact = finish sx m1 (e + n).
Proof.
  intros HM.
  unfold binary_round_aux, shr_fexp. cbn [shr_record_of_loc].
  fold (fexp32 (Zdigits2 M + e)).
  destruct (shr_shifted M e (fexp32 (Zdigits2 M + e) - e) HM) as [Hs He].
  destruct (shr _ e _) as [mrs' e'] eqn:E1. cbn [fst snd] in Hs, He. subst e'.
  set (n := Z.max 0 (fexp32 (Zdigits2 M + e) - e)) in *.
  destruct (round_nearest_even_bounds _ _ _ Hs) as [Hb Hex].
  set (m1 := round_nearest_even (shr_m mrs') (loc_of_shr_record mrs')) in *.
  exists m1. split; [exact Hb|]. split; [exact Hex|].
  assert (Hn : 0 <= n) by (unfold n; lia).
  assert (Hq : 0 <= M / 2 ^ n)
    by (apply Z.div_pos; [lia|apply Z.pow_pos_nonneg; lia]).
  assert (Hm1 : 0 <= m1) by lia.
  fold (fexp32 (Zdigits2 m1 + (e + n))).
  destruct (shr_shifted m1 (e + n) (fexp32 (Zdigits2 m1 + (e + n)) - (e + n)) Hm1)
    as [[Hs2 _] He2].
  destruct (shr _ (e + n) _) as [mrs'' e''] eqn:E2. cbn [fst snd] in Hs2, He2.
  unfold finish. rewrite Hs2, He2. reflexivity.
Qed.


(** *** Comparing a rounded result with a canonical number *)

Lemma leb_finite_pos (m m' : positive) (e e' : Z) :
  e < e' \/ (e = e' /\ (m <= m')%positive) ->
  SFleb (S754_finite false m e) (S754_finite false m' e') = true.
Proof.
  unfold SFleb. cbn [SFcompare].
  change (PosDef.Pos.compare_cont Eq m m') with (Pos.compare m m').
  intros [Hlt|[-> Hle]].
  - rewrite (proj2 (Z.compare_lt_iff e e') Hlt). reflexivity.
  - rewrite Z.compare_refl.
    destruct (Pos.compare_spec m m'); try reflexivity. lia.
Qed.

(** A mantissa with at least one digit survives the second alignment. *)
Lemma finish_quotient_pos (m1 e1 : Z) :
  0 < m1 -> -149 <= e1 ->
  1 <= m1 / 2 ^ Z.max 0 (fexp32 (Zdigits2 m1 + e1) - e1).
Proof.
  intros Hm He. rewrite fexp32_eq.
  set (n2 := Z.max 0 (Z.max (Zdigits2 m1 + e1 - 24) (-149) - e1)).
  pose proof (Zdigits2_pos m1 Hm) as Hd.
  destruct (Zdigits2_bounds m1 Hm) as [Hlo _].
  assert (Hn2 : 0 <= n2 <= Zdigits2 m1 - 1) by (unfold n2; lia).
  assert (2 ^ n2 <= 2 ^ (Zdigits2 m1 - 1)) by (apply Z.pow_le_mono_r; lia).
  apply Z.div_le_lower_bound; [apply Z.pow_pos_nonneg; lia|lia].
Qed.

Lemma finish_ge (mx : positive) (ex m1 e1 : Z) :
  0 < m1 -> -149 <= e1 ->
  ex < e1 \/ (e1 = ex /\ Zpos mx <= m1) ->
  SFleb (S754_finite false mx ex) (finish false m1 e1) = true.
Proof.
  intros Hm He Hlex. unfold finish.
  pose proof (finish_quotient_pos m1 e1 Hm He) as Hq.
  set (n2 := Z.max 0 (fexp32 (Zdigits2 m1 + e1) - e1)) in *.
  assert (Hn2 : 0 <= n2) by (unfold n2; lia).
  destruct (m1 / 2 ^ n2) as [|m2|m2] eqn:E; try lia.
  destruct (e1 + n2 <=? 104); [|reflexivity].
  apply leb_finite_pos.
  destruct (Z.eq_dec n2 0) as [H0|H0].
  - rewrite H0, Z.pow_0_r, Z.div_1_r in E. rewrite H0, Z.add_0_r.
    destruct Hlex as [Hlt|[-> Hle]]; [left; exact Hlt|right].
    split; [reflexivity|]. lia.
  - left. lia.
Qed.

Lemma finish_le (mx : positive) (ex m1 e1 : Z) :
  fexp32 (Zpos (digits2_pos mx) + ex) = ex -> ex <= 104 ->
  0 <= m1 -> -149 <= e1 ->
  (e1 = ex /\ m1 <= Zpos mx) \/ (e1 < ex /\ m1 <= 2 ^ 24) ->
  SFleb (finish false m1 e1) (S754_finite false mx ex) = true.
Proof.
  intros Hcan Hex Hm He Hcase. unfold finish.
  rewrite fexp32_eq in Hcan |- *.
  destruct (Z.eq_dec m1 0) as [->|Hnz].
  { rewrite Z.div_0_l; [reflexivity|].
    apply Z.pow_nonzero; lia. }
  assert (Hpos : 0 < m1) by lia.
  pose proof (Zdigits2_pos m1 Hpos) as Hd.
  destruct (Zdigits2_bounds m1 Hpos) as [Hlo Hhi].
  destruct (digits2_pos_bounds mx) as [Hxlo Hxhi].
  destruct Hcase as [[-> Hle]|[Hlt Hle]].
  - (* same exponent: no second shift *)
    assert (Hdm : Zdigits2 m1 <= Zpos (digits2_pos mx)).
    { change (Zpos (digits2_pos mx)) with (Zdigits2 (Zpos mx)).
      apply Zdigits2_mono; lia. }
    replace (Z.max 0 (Z.max (Zdigits2 m1 + ex - 24) (-149) - ex)) with 0 by lia.
    rewrite Z.pow_0_r, Z.div_1_r, Z.add_0_r.
    destruct m1 as [|p|p]; try lia.
    rewrite (proj2 (Z.leb_le ex 104) Hex).
    apply leb_finite_pos. right. split; [reflexivity|lia].
  - (* smaller exponent: at most one more shift *)
    assert (Hd25 : Zdigits2 m1 <= 25).
    { destruct (Z.eq_dec m1 (2 ^ 24)) as [->|Hne]; [reflexivity|].
      assert (Zdigits2 m1 <= 24); [|lia].
      apply Zdigits2_le_of_lt_pow; lia. }
    destruct (Z.le_gt_cases (Zdigits2 m1) 24) as [H24|H25].
    + replace (Z.max 0 (Z.max (Zdigits2 m1 + e1 - 24) (-149) - e1)) with 0 by lia.
      rewrite Z.pow_0_r, Z.div_1_r, Z.add_0_r.
      destruct m1 as [|p|p]; try lia.
      rewrite (proj2 (Z.leb_le e1 104) ltac:(lia)).
      apply leb_finite_pos. left; exact Hlt.
    + assert (Hdd : Zdigits2 m1 = 25) by lia.
      assert (Hm1 : m1 = 2 ^ 24).
      { rewrite Hdd in Hlo. change (2 ^ (25 - 1)) with (2 ^ 24) in Hlo. lia. }
      replace (Z.max 0 (Z.max (Zdigits2 m1 + e1 - 24) (-149) - e1)) with 1 by lia.
      rewrite Hm1. change (2 ^ 24 / 2 ^ 1) with (Zpos 8388608).
      rewrite (proj2 (Z.leb_le (e1 + 1) 104) ltac:(lia)).
      apply leb_finite_pos.
      destruct (Z.eq_dec (e1 + 1) ex) as [Heq|Hne]; [right|left; lia].
      split; [exact Heq|].
      assert (Hdx : Zpos (digits2_pos mx) = 24) by lia.
      rewrite Hdx in Hxlo. change (2 ^ (24 - 1)) with 8388608 in Hxlo. lia.
Qed.


(** Rounding a value that is at least (at most) a canonical positive
    number gives a result that is at least (at most) that number. *)
Lemma round_aux_ge (mx : positive) (ex M e : Z) :
  fexp32 (Zpos (digits2_pos mx) + ex) = ex ->
  e <= ex -> Zpos mx * 2 ^ (ex - e) <= M ->
  SFleb (S754_finite false mx ex)
        (binary_round_aux F32.prec F32.emax false M e loc_Exact) = true.
Proof.
  intros Hcan Hee HM.
  assert (Hp : 0 < 2 ^ (ex - e)) by (apply Z.pow_pos_nonneg; lia).
  assert (HM0 : 0 < M) by nia.
  destruct (binary_round_aux_exact false M e ltac:(lia)) as (m1 & Hb & _ & ->).
  cbv zeta in Hb.
  assert (Hdig : Zpos (digits2_pos mx) + (ex - e) <= Zdigits2 M).
  { change (Zpos (digits2_pos mx)) with (Zdigits2 (Zpos mx)).
    rewrite <- Zdigits2_mul_pow by lia. apply Zdigits2_mono; lia. }
  rewrite fexp32_eq in Hcan, Hb |- *.
  set (n := Z.max 0 (Z.max (Zdigits2 M + e - 24) (-149) - e)) in *.
  destruct (Zdigits2_bounds M HM0) as [Hlo _].
  assert (Hn : ex - e <= n <= Zdigits2 M - 1) by (unfold n; lia).
  assert (Hpn : 0 < 2 ^ n) by (apply Z.pow_pos_nonneg; lia).
  assert (Hq1 : 1 <= M / 2 ^ n).
  { apply Z.div_le_lower_bound; [lia|].
    assert (2 ^ n <= 2 ^ (Zdigits2 M - 1)) by (apply Z.pow_le_mono_r; lia).
    lia. }
  apply finish_ge; [lia|unfold n; lia|].
  destruct (Z.eq_dec n (ex - e)) as [Heq|Hne]; [right|left; lia].
  split; [lia|].
  assert (Zpos mx <= M / 2 ^ n); [|lia].
  apply Z.div_le_lower_bound; [lia|]. rewrite Heq. lia.
Qed.

Lemma round_aux_le (mx : positive) (ex M e : Z) :
  fexp32 (Zpos (digits2_pos mx) + ex) = ex -> ex <= 104 ->
  e <= ex -> 0 < M <= Zpos mx * 2 ^ (ex - e) ->
  SFleb (binary_round_aux F32.prec F32.emax false M e loc_Exact)
        (S754_finite false mx ex) = true.
Proof.
  intros Hcan Hex Hee HM.
  assert (Hp : 0 < 2 ^ (ex - e)) by (apply Z.pow_pos_nonneg; lia).
  destruct (binary_round_aux_exact false M e ltac:(lia)) as (m1 & Hb & Hexact & ->).
  cbv zeta in Hb, Hexact.
  assert (Hdig : Zdigits2 M <= Zpos (digits2_pos mx) + (ex - e)).
  { change (Zpos (digits2_pos mx)) with (Zdigits2 (Zpos mx)).
    rewrite <- Zdigits2_mul_pow by lia. apply Zdigits2_mono; lia. }
  pose proof Hcan as Hcan'.
  rewrite fexp32_eq in Hcan', Hb, Hexact |- *.
  set (n := Z.max 0 (Z.max (Zdigits2 M + e - 24) (-149) - e)) in *.
  destruct (Zdigits2_bounds M ltac:(lia)) as [_ Hhi].
  pose proof (Zdigits2_pos M ltac:(lia)) as HdM.
  assert (Hn : 0 <= n <= ex - e /\ Zdigits2 M - 24 <= n) by (unfold n; lia).
  assert (Hpn : 0 < 2 ^ n) by (apply Z.pow_pos_nonneg; lia).
  assert (Hq0 : 0 <= M / 2 ^ n) by (apply Z.div_pos; lia).
  apply finish_le; [exact Hcan|exact Hex|lia|unfold n; lia|].
  destruct (Z.eq_dec n (ex - e)) as [Heq|Hne]; [left|right].
  - split; [lia|].
    pose proof (Z.div_mod M (2 ^ n) ltac:(lia)) as Hdm.
    pose proof (Z.mod_pos_bound M (2 ^ n) Hpn) as Hmod.
    rewrite <- Heq in HM.
    destruct (Z.eq_dec (M mod 2 ^ n) 0) as [H0|H0].
    + rewrite (Hexact H0). nia.
    + assert (M / 2 ^ n < Zpos mx) by nia. lia.
  - split; [lia|].
    assert (M / 2 ^ n < 2 ^ 24); [|lia].
    apply Z.div_lt_upper_bound; [lia|].
    assert (2 ^ Zdigits2 M <= 2 ^ (n + 24)) by (apply Z.pow_le_mono_r; lia).
    rewrite Z.pow_add_r in * by lia. lia.
Qed.


(** *** Alignment to the left *)

Lemma iter_xO_value (m d : positive) :
  Zpos (Pos.iter xO m d) = Zpos m * 2 ^ Zpos d.
Proof.
  induction d as [|d IH] using Pos.peano_ind.
  - cbn [Pos.iter]. rewrite Pos2Z.inj_xO, Z.pow_1_r. lia.
  - rewrite Pos.iter_succ, Pos2Z.inj_xO, IH, Pos2Z.inj_succ, Z.pow_succ_r by lia.
    lia.
Qed.

Lemma shl_align_value (m : positive) (e e' : Z) :
  snd (shl_align m e e') = Z.min e e' /\
  Zpos (fst (shl_align m e e')) = Zpos m * 2 ^ (e - Z.min e e').
Proof.
  unfold shl_align. destruct (e' - e) as [|d|d] eqn:E; cbn [fst snd].
  - replace (Z.min e e') with e by lia. rewrite Z.sub_diag. simpl. lia.
  - replace (Z.min e e') with e by lia. rewrite Z.sub_diag. simpl. lia.
  - replace (Z.min e e') with e' by lia. split; [reflexivity|].
    rewrite iter_xO_value. f_equal. f_equal. lia.
Qed.

Lemma binary_round_ge (mx p : positive) (ex ez : Z) :
  fexp32 (Zpos (digits2_pos mx) + ex) = ex ->
  ez <= ex -> Zpos mx * 2 ^ (ex - ez) <= Zpos p ->
  SFleb (S754_finite false mx ex)
        (binary_round F32.prec F32.emax false p ez) = true.
Proof.
  intros Hcan Hee Hp. unfold binary_round.
  destruct (shl_align_value p ez (fexp F32.prec F32.emax (Zpos (digits2_pos p) + ez)))
    as [He Hm].
  destruct (shl_align p ez _) as [mz ez']. cbn [fst snd] in He, Hm.
  apply round_aux_ge; [exact Hcan|lia|].
  rewrite Hm. replace (ex - ez') with ((ex - ez) + (ez - Z.min ez
    (fexp F32.prec F32.emax (Zpos (digits2_pos p) + ez)))) by lia.
  rewrite Z.pow_add_r by lia.
  assert (0 < 2 ^ (ez - Z.min ez (fexp F32.prec F32.emax (Zpos (digits2_pos p) + ez))))
    by (apply Z.pow_pos_nonneg; lia).
  nia.
Qed.

Lemma binary_round_le (mx p : positive) (ex ez : Z) :
  fexp32 (Zpos (digits2_pos mx) + ex) = ex -> ex <= 104 ->
  ez <= ex -> Zpos p <= Zpos mx * 2 ^ (ex - ez) ->
  SFleb (binary_round F32.prec F32.emax false p ez)
        (S754_finite false mx ex) = true.
Proof.
  intros Hcan Hex Hee Hp. unfold binary_round.
  destruct (shl_align_value p ez (fexp F32.prec F32.emax (Zpos (digits2_pos p) + ez)))
    as [He Hm].
  destruct (shl_align p ez _) as [mz ez']. cbn [fst snd] in He, Hm.
  apply round_aux_le; [exact Hcan|exact Hex|lia|].
  split; [lia|].
  rewrite Hm. replace (ex - ez') with ((ex - ez) + (ez - Z.min ez
    (fexp F32.prec F32.emax (Zpos (digits2_pos p) + ez)))) by lia.
  rewrite Z.pow_add_r by lia.
  assert (0 < 2 ^ (ez - Z.min ez (fexp F32.prec F32.emax (Zpos (digits2_pos p) + ez))))
    by (apply Z.pow_pos_nonneg; lia).
  nia.
Qed.

(** *** Signs *)

Lemma binary_round_aux_sign (sx : bool) (M e : Z) :
  0 <= M -> has_sign sx (binary_round_aux F32.prec F32.emax sx M e loc_Exact).
Proof.
  intros HM.
  destruct (binary_round_aux_exact sx M e HM) as (m1 & Hb & _ & ->).
  cbv zeta in Hb. unfold finish.
  set (n := Z.max 0 (fexp32 (Zdigits2 M + e) - e)) in *.
  set (n2 := Z.max 0 _).
  assert (0 <= M / 2 ^ n) by (apply Z.div_pos; [lia|apply Z.pow_pos_nonneg; lia]).
  assert (0 <= m1 / 2 ^ n2)
    by (apply Z.div_pos; [lia|apply Z.pow_pos_nonneg; unfold n2; lia]).
  destruct (m1 / 2 ^ n2); try lia; [reflexivity|].
  destruct (_ <=? _); reflexivity.
Qed.

Lemma binary_round_sign (sx : bool) (p : positive) (e : Z) :
  has_sign sx (binary_round F32.prec F32.emax sx p e).
Proof.
  unfold binary_round. destruct (shl_align p e _) as [mz ez].
  apply binary_round_aux_sign. lia.
Qed.

Lemma binary_round_opp (p : positive) (e : Z) :
  binary_round F32.prec F32.emax true p e =
  SFopp (binary_round F32.prec F32.emax false p e).
Proof.
  unfold binary_round. destruct (shl_align p e _) as [mz ez].
  unfold binary_round_aux.
  destruct (shr_fexp _ _ _ _ _) as [mrs' e'].
  destruct (shr_fexp _ _ _ _ _) as [mrs'' e''].
  destruct (shr_m mrs''); try reflexivity.
  destruct (_ <=? _); reflexivity.
Qed.

Lemma leb_negative_nonnegative (m : positive) (e : Z) (x : spec_float) :
  has_sign false x -> SFleb (S754_finite true m e) x = true.
Proof. destruct x as [[]|[]| |[] ? ?]; simpl; intros H; try easy. Qed.

Lemma leb_nonpositive_positive (m : positive) (e : Z) (x : spec_float) :
  has_sign true x -> SFleb x (S754_finite false m e) = true.
Proof. destruct x as [[]|[]| |[] ? ?]; simpl; intros H; try easy. Qed.

Lemma leb_zero_nonnegative (x : spec_float) :
  has_sign false x -> SFleb (S754_zero false) x = true.
Proof. destruct x as [[]|[]| |[] ? ?]; simpl; intros H; try easy. Qed.

Lemma leb_opp_finite (m : positive) (e : Z) (x : spec_float) :
  has_sign false x ->
  SFleb (S754_finite true m e) (SFopp x) = SFleb x (S754_finite false m e) /\
  SFleb (SFopp x) (S754_finite true m e) = SFleb (S754_finite false m e) x.
Proof.
  destruct x as [[]|[]| |[] m' e']; simpl; intros H; try easy.
  unfold SFleb. cbn [SFcompare].
  rewrite (Z.compare_antisym e e').
  change (PosDef.Pos.compare_cont Eq m m') with (Pos.compare m m').
  change (PosDef.Pos.compare_cont Eq m' m) with (Pos.compare m' m).
  rewrite (Pos.compare_antisym m m').
  destruct (e ?= e'); destruct (m ?= m')%positive; split; reflexivity.
Qed.


(** *** Rounded sums against a canonical number *)

(** A finite number is canonical when it is a binary32 datum: its
    exponent is the one its digits call for and is within range. *)
Lemma valid_finite (s : bool) (m : positive) (e : Z) :
  F32.valid (S754_finite s m e) = true ->
  fexp32 (Zpos (digits2_pos m) + e) = e /\ e <= 104.
Proof.
  unfold F32.valid, valid_binary, bounded, canonical_mantissa.
  intros H. apply andb_true_iff in H as [H1 H2].
  apply Z.eqb_eq in H1. apply Z.leb_le in H2.
  split; [exact H1|exact H2].
Qed.

Lemma normalize_ge (sx : bool) (mx : positive) (ex ez N : Z) :
  F32.valid (S754_finite sx mx ex) = true -> ez <= ex ->
  cond_Zopp sx (Zpos mx * 2 ^ (ex - ez)) <= N ->
  SFleb (S754_finite sx mx ex)
        (binary_normalize F32.prec F32.emax N ez false) = true.
Proof.
  intros Hv Hee HN. destruct (valid_finite _ _ _ Hv) as [Hcan Hex].
  assert (Hp : 0 < 2 ^ (ex - ez)) by (apply Z.pow_pos_nonneg; lia).
  destruct sx; cbn [cond_Zopp] in HN.
  - destruct N as [|p|p]; cbn [binary_normalize].
    + reflexivity.
    + apply leb_negative_nonnegative, binary_round_sign.
    + rewrite binary_round_opp.
      rewrite (proj1 (leb_opp_finite mx ex _ (binary_round_sign false p ez))).
      apply binary_round_le; [exact Hcan|exact Hex|exact Hee|lia].
  - destruct N as [|p|p]; try lia. cbn [binary_normalize].
    apply binary_round_ge; [exact Hcan|exact Hee|exact HN].
Qed.

Lemma normalize_le (sx : bool) (mx : positive) (ex ez N : Z) :
  F32.valid (S754_finite sx mx ex) = true -> ez <= ex ->
  N <= cond_Zopp sx (Zpos mx * 2 ^ (ex - ez)) ->
  SFleb (binary_normalize F32.prec F32.emax N ez false)
        (S754_finite sx mx ex) = true.
Proof.
  intros Hv Hee HN. destruct (valid_finite _ _ _ Hv) as [Hcan Hex].
  assert (Hp : 0 < 2 ^ (ex - ez)) by (apply Z.pow_pos_nonneg; lia).
  destruct sx; cbn [cond_Zopp] in HN.
  - destruct N as [|p|p]; try lia. cbn [binary_normalize].
    rewrite binary_round_opp.
    rewrite (proj2 (leb_opp_finite mx ex _ (binary_round_sign false p ez))).
    apply binary_round_ge; [exact Hcan|exact Hee|lia].
  - destruct N as [|p|p]; cbn [binary_normalize].
    + reflexivity.
    + apply binary_round_le; [exact Hcan|exact Hex|exact Hee|lia].
    + apply leb_nonpositive_positive, binary_round_sign.
Qed.

(** Adding a number that is not negative to a finite binary32 number
    does not give less, and subtracting it does not give more. *)
Lemma add_nonneg_ge (c h : F32.float) :
  F32.valid c = true -> F32.is_finite c = true ->
  F32.leb (S754_zero false) h = true ->
  F32.leb c (F32.add c h) = true.
Proof.
  intros Hv Hf Hh.
  destruct c as [sc| | |sc mc ec]; try discriminate;
    destruct h as [sh|[]| |[] mh eh]; try discriminate.
  - destruct sc, sh; reflexivity.
  - reflexivity.
  - reflexivity.
  - unfold F32.leb, F32.add. cbn [SFadd]. unfold SFleb. cbn [SFcompare].
    rewrite Z.compare_refl.
    change (PosDef.Pos.compare_cont Eq mc mc) with (Pos.compare mc mc).
    rewrite Pos.compare_refl. destruct sc; reflexivity.
  - destruct sc; reflexivity.
  - unfold F32.leb, F32.add. cbn [SFadd].
    destruct (shl_align_value mc ec (Z.min ec eh)) as [_ Hc].
    rewrite Z.min_assoc, Z.min_id in Hc.
    apply normalize_ge; [exact Hv|lia|].
    rewrite Hc. cbn [cond_Zopp]. lia.
Qed.

Lemma sub_nonneg_le (c h : F32.float) :
  F32.valid c = true -> F32.is_finite c = true ->
  F32.leb (S754_zero false) h = true ->
  F32.leb (F32.sub c h) c = true.
Proof.
  intros Hv Hf Hh.
  destruct c as [sc| | |sc mc ec]; try discriminate;
    destruct h as [sh|[]| |[] mh eh]; try discriminate.
  - destruct sc, sh; reflexivity.
  - reflexivity.
  - reflexivity.
  - unfold F32.leb, F32.sub. cbn [SFsub]. unfold SFleb. cbn [SFcompare].
    rewrite Z.compare_refl.
    change (PosDef.Pos.compare_cont Eq mc mc) with (Pos.compare mc mc).
    rewrite Pos.compare_refl. destruct sc; reflexivity.
  - destruct sc; reflexivity.
  - unfold F32.leb, F32.sub. cbn [SFsub].
    destruct (shl_align_value mc ec (Z.min ec eh)) as [_ Hc].
    rewrite Z.min_assoc, Z.min_id in Hc.
    apply normalize_le; [exact Hv|lia|].
    rewrite Hc. cbn [cond_Zopp]. lia.
Qed.

(** Half of a number that is not negative is not negative. *)
Lemma mul_half_nonneg (s : F32.float) :
  F32.leb (S754_zero false) s = true ->
  F32.leb (S754_zero false) (F32.mul s (S754_finite false 8388608 (-24))) = true.
Proof.
  destruct s as [ss|[]| |[] ms es]; try discriminate; intros _.
  - destruct ss; reflexivity.
  - reflexivity.
  - unfold F32.mul. cbn [SFmul xorb].
    apply leb_zero_nonnegative, binary_round_aux_sign. lia.
Qed.

End Rounding.

(** ** The two loops of [checkCollision] *)

Module CollisionFacts.
Import F32Order.
Local Open Scope f32_scope.

Lemma inAnyBound_existsb (p : vec3) (bounds : list boxBound) :
  inAnyBound p bounds = existsb (inBound p) bounds.
Proof.
  induction bounds as [|b rest IH]; simpl; [reflexivity|].
  rewrite IH. destruct (inBound p b); reflexivity.
Qed.

Lemma inAnyBound_room (p : vec3) :
  inAnyBound p roomBounds = pointInRoomBounds p.
Proof. apply inAnyBound_existsb. Qed.

Lemma isCube_name (o : Object) : isCube o = true <-> name o = "cube"%string.
Proof. apply String.eqb_eq. Qed.

Lemma hitsAnyCube_existsb (p : vec3) (objects : list Object) :
  hitsAnyCube p objects =
  existsb (fun o => isCube o && cameraHits p o) objects.
Proof.
  induction objects as [|o rest IH]; simpl; [reflexivity|].
  rewrite IH. unfold cameraHits.
  destruct (isCube o); simpl; [|reflexivity].
  destruct (objectCollision _ _ _ _); reflexivity.
Qed.

Lemma hitsAnyCube_iff (p : vec3) (objects : list Object) :
  hitsAnyCube p objects = true <->
  exists o, In o objects /\ name o = "cube"%string /\ cameraHits p o = true.
Proof.
  rewrite hitsAnyCube_existsb, existsb_exists. split.
  - intros (o & Hin & H). apply andb_true_iff in H as [Hc Hh].
    exists o. rewrite <- isCube_name. auto.
  - intros (o & Hin & Hn & Hh). exists o. split; [exact Hin|].
    apply andb_true_iff. rewrite isCube_name. auto.
Qed.

(** Only the cubes of the list matter. *)
Lemma hitsAnyCube_filter (p : vec3) (objects : list Object) :
  hitsAnyCube p objects = hitsAnyCube p (filter isCube objects).
Proof.
  induction objects as [|o rest IH]; simpl; [reflexivity|].
  destruct (isCube o) eqn:E; simpl; rewrite ?E, IH; reflexivity.
Qed.

Lemma checkCollision_iff (p : vec3) (objects : list Object) :
  checkCollision p objects = true <->
  pointInRoomBounds p = true \/
  exists o, In o objects /\ name o = "cube"%string /\ cameraHits p o = true.
Proof.
  unfold checkCollision. rewrite inAnyBound_room, <- hitsAnyCube_iff.
  destruct (pointInRoomBounds p); intuition congruence.
Qed.

Lemma pointInRoomBounds_iff (p : vec3) :
  pointInRoomBounds p = true <->
  exists b, In b roomBounds /\ inBound p b = true.
Proof. apply existsb_exists. Qed.

(** *** The closest point *)

(** On a well-formed interval the source's [max(lo, min(v, hi))] is the
    clamp. *)
Lemma closest_is_clamp (v lo hi : F32.float) :
  (lo <=? hi) = true -> F32.is_nan v = false ->
  F32.same_value (F32.fmax lo (F32.fmin v hi)) (clampInto v lo hi).
Proof.
  unfold F32.fmax, F32.fmin, clampInto, F32.same_value.
  by_cases3 v lo hi; auto.
Qed.

(** The computed point lies between the faces of a well-formed
    interval. *)
Lemma closest_within (v lo hi : F32.float) :
  (lo <=? hi) = true ->
  (lo <=? F32.fmax lo (F32.fmin v hi)) = true /\
  (F32.fmax lo (F32.fmin v hi) <=? hi) = true.
Proof.
  unfold F32.fmax, F32.fmin.
  by_cases3 v lo hi; auto.
Qed.

(** On an inverted interval the computed point is the low face. *)
Lemma closest_inverted (v lo hi : F32.float) :
  (hi <? lo) = true -> F32.fmax lo (F32.fmin v hi) = lo.
Proof.
  unfold F32.fmax, F32.fmin.
  by_cases3 v lo hi; auto.
Qed.

End CollisionFacts.

(** ** The sphere-box predicate *)

Module SphereBox.
Import F32Order CollisionFacts.
Local Open Scope f32_scope.

Lemma square_to_clamp (c lo hi : F32.float) :
  (lo <=? hi) = true ->
  (c - F32.fmax lo (F32.fmin c hi)) * (c - F32.fmax lo (F32.fmin c hi)) =
  (c - clampInto c lo hi) * (c - clampInto c lo hi).
Proof.
  intros Hwf. destruct (F32.is_nan c) eqn:Hc.
  - destruct c; try discriminate. reflexivity.
  - apply sub_square_same_value, closest_is_clamp; assumption.
Qed.

(** On a well-formed box the source computes what the specification
    words. *)
Lemma objectCollision_wellFormed (c : vec3) (r : F32.float) (b s : vec3) :
  wellFormedBox b s = true ->
  objectCollision c r b s = sphereIntersectsBox c r b s.
Proof.
  unfold wellFormedBox, boxLow, boxHigh. intros H.
  apply andb_true_iff in H as [H Hz]. apply andb_true_iff in H as [Hx Hy].
  unfold objectCollision, sphereIntersectsBox, roundedDistance.
  unfold closestPoint, closestAxis.
  unfold Vec3.length, Vec3.dot. cbn [Vec3.sub Vec3.add Vec3.scale_r vx vy vz] in *.
  rewrite (square_to_clamp _ _ _ Hx), (square_to_clamp _ _ _ Hy),
          (square_to_clamp _ _ _ Hz).
  reflexivity.
Qed.

(** A sphere centred at the finite centre of a box that holds its centre
    is at distance zero from the box. *)
Lemma closestAxis_centre (c half : F32.float) :
  F32.is_finite c = true ->
  (c - half <=? c) = true -> (c <=? c + half) = true ->
  F32.is_zero (c - closestAxis c c half) = true.
Proof.
  intros Hf Hlo Hhi. unfold closestAxis, F32.fmin.
  rewrite (leb_not_ltb _ _ Hhi). unfold F32.fmax.
  destruct (c - half <? c) eqn:Hlt.
  - apply sub_diag_zero; exact Hf.
  - apply sub_same_value_zero; [exact Hf|].
    apply leb_antisym; [|exact Hlo].
    apply not_ltb_leb; [eapply leb_not_nan_l; exact Hlo| |exact Hlt].
    eapply leb_not_nan_r; exact Hlo.
Qed.

Lemma centre_hit (b s : vec3) :
  holdsCentre b s = true -> objectCollision b cameraRadius b s = true.
Proof.
  unfold holdsCentre, boxLow, boxHigh, Vec3.is_finite.
  cbn [Vec3.sub Vec3.add Vec3.scale_r vx vy vz].
  intros H. repeat (apply andb_true_iff in H as [H ?]).
  unfold objectCollision, closestPoint.
  apply zero_length_below_radius; cbn [Vec3.sub Vec3.scale_r vx vy vz];
    apply closestAxis_centre; assumption.
Qed.

(** The box of a finite centre and a scale whose components are at
    least zero holds its centre, whatever the rounding of the two
    faces. *)
Lemma proper_axis (c s : F32.float) :
  F32.valid c = true -> F32.is_finite c = true -> F32.nonneg s = true ->
  (c - s * p0_5 <=? c) = true /\ (c <=? c + s * p0_5) = true.
Proof.
  intros Hv Hf Hs.
  pose proof (Rounding.mul_half_nonneg s Hs) as Hh.
  change (S754_finite false 8388608 (-24)) with p0_5 in Hh.
  split.
  - apply Rounding.sub_nonneg_le; assumption.
  - apply Rounding.add_nonneg_ge; assumption.
Qed.

Lemma properBox_holdsCentre (b s : vec3) :
  properBox b s = true -> holdsCentre b s = true.
Proof.
  unfold properBox, Vec3.valid, Vec3.is_finite, Vec3.nonneg.
  intros H.
  repeat match goal with
  | H : _ && _ = true |- _ => apply andb_true_iff in H; destruct H
  end.
  unfold holdsCentre, boxLow, boxHigh, Vec3.is_finite.
  cbn [Vec3.sub Vec3.add Vec3.scale_r vx vy vz].
  destruct (proper_axis (vx b) (vx s)) as [X1 X2]; try assumption.
  destruct (proper_axis (vy b) (vy s)) as [Y1 Y2]; try assumption.
  destruct (proper_axis (vz b) (vz s)) as [Z1 Z2]; try assumption.
  rewrite X1, X2, Y1, Y2, Z1, Z2.
  repeat (apply andb_true_iff; split); try reflexivity; assumption.
Qed.

Lemma holdsCentre_wellFormed (b s : vec3) :
  holdsCentre b s = true -> wellFormedBox b s = true.
Proof.
  unfold holdsCentre, wellFormedBox. intros H.
  repeat match goal with
  | H : _ && _ = true |- _ => apply andb_true_iff in H; destruct H
  end.
  repeat (apply andb_true_iff; split); eapply leb_trans; eassumption.
Qed.

End SphereBox.

(** ** The program's scene *)

Module SceneFacts.
Import CollisionFacts SphereBox.

(** Every cube [main] places has a proper box. *)
Lemma scene_cubes_proper (radians : F32.float -> F32.float) (o : Object) :
  In o (sceneObjects radians) -> isCube o = true ->
  properBox (position o) (scale o) = true.
Proof.
  unfold sceneObjects, cubePositions. cbn [map app In].
  intros Hin Hcube.
  repeat (destruct Hin as [<-|Hin];
          [first [vm_compute; reflexivity | vm_compute in Hcube; discriminate]|]).
  contradiction.
Qed.

Lemma scene_cubes_count (radians : F32.float -> F32.float) :
  List.length (filter isCube (sceneObjects radians)) = 11%nat /\
  List.length (sceneObjects radians) = 17%nat.
Proof. split; reflexivity. Qed.

End SceneFacts.

(** ** The keyboard step and the render loop *)

Module MovementFacts.
Import CollisionFacts.
Local Open Scope f32_scope.

Lemma keyboardInput_camera (k : Keys) (objects : list Object) (st : State) :
  camera (keyboardInput k objects st) =
  set_eye (camera st)
    (if checkCollision (candidate k (deltaTime st) (camera st)) objects
     then eye (camera st)
     else candidate k (deltaTime st) (camera st)).
Proof.
  unfold keyboardInput, candidate.
  destruct (keyEscape k); cbn [camera deltaTime set_eye eye];
    destruct (checkCollision _ objects); reflexivity.
Qed.

Lemma keyboardInput_eye (k : Keys) (objects : list Object) (st : State) :
  eye (camera (keyboardInput k objects st)) =
  if checkCollision (candidate k (deltaTime st) (camera st)) objects
  then eye (camera st)
  else candidate k (deltaTime st) (camera st).
Proof. rewrite keyboardInput_camera. reflexivity. Qed.

Lemma keyboardInput_timers (k : Keys) (objects : list Object) (st : State) :
  previousTime (keyboardInput k objects st) = previousTime st /\
  deltaTime (keyboardInput k objects st) = deltaTime st /\
  shouldClose (keyboardInput k objects st) = keyEscape k || shouldClose st.
Proof.
  unfold keyboardInput.
  destruct (keyEscape k); destruct (checkCollision _ objects);
    repeat split; reflexivity.
Qed.

Lemma candidate_height (k : Keys) (dt : F32.float) (c : Camera) :
  vy (candidate k dt c) = floorLevel.
Proof. reflexivity. Qed.

(** The keyboard step keeps an eye that is at floor level at floor
    level. *)
Lemma keyboardInput_keeps_height (k : Keys) (objects : list Object) (st : State) :
  vy (eye (camera st)) = floorLevel ->
  vy (eye (camera (keyboardInput k objects st))) = floorLevel.
Proof.
  intros H. rewrite keyboardInput_eye.
  destruct (checkCollision _ objects); [exact H|apply candidate_height].
Qed.

Lemma frame_eye (inp : FrameInput) (objects : list Object) (st : State) :
  eye (camera (frame inp objects st)) =
  eye (camera (keyboardInput (fiKeys inp) objects (updateTimer (fiTime inp) st))).
Proof. reflexivity. Qed.

Lemma reachable_height (objects : list Object) (st : State) :
  reachable objects st -> vy (eye (camera st)) = floorLevel.
Proof.
  induction 1 as [st (He & _)|st inp Hr IH Hopen].
  - rewrite He. reflexivity.
  - rewrite frame_eye. apply keyboardInput_keeps_height. exact IH.
Qed.

(** A candidate at floor level lies neither in the floor bound nor in
    the ceiling bound. *)
Lemma floor_level_outside_slabs (p : vec3) :
  vy p = floorLevel ->
  inBound p floorBound = false /\ inBound p ceilingBound = false.
Proof.
  intros H. unfold inBound. rewrite H.
  cbn [yMin yMax floorBound ceilingBound].
  replace (floorLevel <=? n4_5) with false by (vm_compute; reflexivity).
  replace (floorLevel >=? p2_5) with false by (vm_compute; reflexivity).
  rewrite !andb_false_r. split; reflexivity.
Qed.

End MovementFacts.

(** * The claims *)

Section Claims.
Import F32Order CollisionFacts SphereBox SceneFacts MovementFacts.
Local Open Scope f32_scope.

(** C1 (as amended).  [checkCollision] answers true exactly when the
    position lies inside one of the six room bounds or the sphere-box test
    succeeds against an object named "cube"; its answer depends on the
    cubes of the list only; and it answers true at the centre of every
    cube whose centre has finite coordinates and every component of whose
    scale is at least zero ([0 <= s], which a NaN does not satisfy), as is
    the case for every cube of the program's scene. *)
Theorem checkCollision_rooms_or_cubes :
  forall (p : vec3) (objects : list Object),
    (checkCollision p objects = true <->
       pointInRoomBounds p = true \/
       exists o, In o objects /\ name o = "cube"%string /\
                 objectCollision p cameraRadius (position o) (scale o) = true) /\
    checkCollision p objects = checkCollision p (filter isCube objects) /\
    (forall o, In o objects -> name o = "cube"%string ->
       Vec3.valid (position o) = true ->
       Vec3.is_finite (position o) = true ->
       Vec3.nonneg (scale o) = true ->
       checkCollision (position o) objects = true) /\
    (forall radians o, In o (sceneObjects radians) -> name o = "cube"%string ->
       Vec3.valid (position o) = true /\
       Vec3.is_finite (position o) = true /\
       Vec3.nonneg (scale o) = true).
Proof.
  intros p objects. split; [apply checkCollision_iff|].
  split; [unfold checkCollision; rewrite <- hitsAnyCube_filter; reflexivity|].
  split.
  - intros o Hin Hname Hv Hf Hs. apply checkCollision_iff. right.
    exists o. repeat split; try assumption.
    apply centre_hit, properBox_holdsCentre.
    unfold properBox. rewrite Hv, Hf, Hs. reflexivity.
  - intros radians o Hin Hname.
    pose proof (scene_cubes_proper radians o Hin
                  (proj2 (isCube_name o) Hname)) as H.
    unfold properBox in H.
    apply andb_true_iff in H as [H Hs]. apply andb_true_iff in H as [Hv Hf].
    auto.
Qed.

Lemma checkCollision_rooms_or_cubes_witness :
  checkCollision (position unitCube) [unitCube] = true.
Proof.
  apply (proj1 (proj2 (proj2
           (checkCollision_rooms_or_cubes originPoint [unitCube])))).
  - left; reflexivity.
  - reflexivity.
  - vm_compute; reflexivity.
  - vm_compute; reflexivity.
  - vm_compute; reflexivity.
Defined.

(** C1 as stated fails: the centre of a cube mirrored along x lies in no
    room bound, and the sphere-box test against that cube answers false
    there, the computed closest point being half a unit away. *)
Lemma mirrored_cube_centre_not_hit :
  In mirroredCube [mirroredCube] /\
  name mirroredCube = "cube"%string /\
  closestPoint (position mirroredCube) (position mirroredCube)
               (scale mirroredCube) = mkVec3 p0_5 p0_0 p0_0 /\
  checkCollision (position mirroredCube) [mirroredCube] = false.
Proof.
  split; [left; reflexivity|].
  split; [reflexivity|].
  split; vm_compute; reflexivity.
Qed.

(** C3 (as amended).  The keyboard step is all-or-nothing with respect
    to the candidate, the displaced eye with its height set to -4: when
    [checkCollision] answers true on the candidate the whole camera is
    what it was before the step, and otherwise the eye is the candidate
    and nothing else of the camera changes; the timers are untouched. *)
Theorem keyboardInput_all_or_nothing :
  forall (k : Keys) (objects : list Object) (st : State),
    let cand := candidate k (deltaTime st) (camera st) in
    let st' := keyboardInput k objects st in
    cand = Vec3.set_y (displaced k (deltaTime st) (camera st)) floorLevel /\
    eye (camera st') =
      (if checkCollision cand objects then eye (camera st) else cand) /\
    camera st' =
      (if checkCollision cand objects then camera st
       else set_eye (camera st) cand) /\
    previousTime st' = previousTime st /\
    deltaTime st' = deltaTime st.
Proof.
  intros k objects st cand st'. split; [reflexivity|].
  split; [apply keyboardInput_eye|].
  split.
  - unfold st'. rewrite keyboardInput_camera. fold cand.
    destruct (checkCollision cand objects); [|reflexivity].
    destruct (camera st); reflexivity.
  - destruct (keyboardInput_timers k objects st) as (H1 & H2 & _). auto.
Qed.

(** C3 as stated fails on both branches.  Looking upwards, the
    displaced position (0, -3.625, -0.5) does not collide, yet the eye
    kept is (0, -4, -0.5).  Looking downwards, the displaced position
    (0, -4.75, -0.5625) lies in the floor bound, yet the eye is not
    restored: it moves to (0, -4, -0.5625). *)
Lemma displaced_position_not_decisive :
  (displaced onlyW (deltaTime lookingUpState) (camera lookingUpState)
     = mkVec3 p0_0 (F32.of_dyadic (-29) (-3)) n0_5 /\
   checkCollision
     (displaced onlyW (deltaTime lookingUpState) (camera lookingUpState)) []
     = false /\
   eye (camera (keyboardInput onlyW [] lookingUpState))
     = mkVec3 p0_0 n4_0 n0_5 /\
   eye (camera (keyboardInput onlyW [] lookingUpState))
     <> displaced onlyW (deltaTime lookingUpState) (camera lookingUpState)) /\
  (displaced onlyW (deltaTime lookingDownState) (camera lookingDownState)
     = mkVec3 p0_0 (F32.of_dyadic (-19) (-2)) (F32.of_dyadic (-9) (-4)) /\
   checkCollision
     (displaced onlyW (deltaTime lookingDownState) (camera lookingDownState)) []
     = true /\
   eye (camera (keyboardInput onlyW [] lookingDownState))
     = mkVec3 p0_0 n4_0 (F32.of_dyadic (-9) (-4)) /\
   eye (camera (keyboardInput onlyW [] lookingDownState))
     <> eye (camera lookingDownState)).
Proof.
  split; (split; [vm_compute; reflexivity|]);
    (split; [vm_compute; reflexivity|]);
    (split; [vm_compute; reflexivity|]);
    intros H; vm_compute in H; discriminate H.
Qed.

(** C4.  In every state the render loop reaches from the initial eye
    (0, -4, 4.5), the eye is at height -4, and so it is after every run
    of the keyboard step from such a state, whatever the keys, the frame
    time and the objects, whether the candidate was kept or the eye
    restored. *)
Theorem eye_height_locked :
  forall (objects : list Object) (st : State),
    reachable objects st ->
    vy (eye (camera st)) = F32.of_Z (-4) /\
    forall (time : F32.float) (k : Keys) (objects' : list Object),
      vy (eye (camera (keyboardInput k objects' (updateTimer time st))))
      = F32.of_Z (-4).
Proof.
  intros objects st Hr.
  pose proof (reachable_height objects st Hr) as H.
  split; [exact H|].
  intros time k objects'. apply keyboardInput_keeps_height. exact H.
Qed.

Lemma eye_height_locked_witness :
  vy (eye (camera (keyboardInput onlyW [] (updateTimer p1_0 startState))))
  = F32.of_Z (-4).
Proof.
  apply (proj2 (eye_height_locked [] startState
                  (reach_initial [] startState
                     (conj eq_refl (conj eq_refl (conj eq_refl
                        (conj eq_refl eq_refl))))))).
Defined.

(** C5 (as amended).  From the eye (0, -4, 4.5), a forward move along
    front (0, 0, -1) with speed 5 and a frame time of one second has the
    candidate (0, -4, -0.5).  That position lies in no room bound and
    [checkCollision] answers false on it, for the program's scene as for
    an empty object list, so the move is committed: after the keyboard
    step, and after the whole frame, the eye is (0, -4, -0.5).  A move is
    discarded, the eye staying where it was, whenever its candidate lands
    inside a wall bound. *)
Theorem forward_move_from_start :
  let cand := candidate onlyW (deltaTime forwardState) (camera forwardState) in
  eye (camera forwardState) = mkVec3 p0_0 n4_0 p4_5 /\
  front (camera forwardState) = mkVec3 p0_0 p0_0 n1_0 /\
  deltaTime forwardState = p1_0 /\
  cand = mkVec3 p0_0 n4_0 n0_5 /\
  inAnyBound cand roomBounds = false /\
  checkCollision cand [] = false /\
  (forall radians, checkCollision cand (sceneObjects radians) = false) /\
  (forall radians,
     eye (camera (keyboardInput onlyW (sceneObjects radians) forwardState))
     = mkVec3 p0_0 n4_0 n0_5) /\
  (forall radians dx dy basis,
     eye (camera (frame (mkFrameInput p1_0 onlyW dx dy basis)
                        (sceneObjects radians) startState))
     = mkVec3 p0_0 n4_0 n0_5) /\
  (forall (k : Keys) (objects : list Object) (st : State),
     inAnyBound (candidate k (deltaTime st) (camera st)) wallBounds = true ->
     checkCollision (candidate k (deltaTime st) (camera st)) objects = true /\
     eye (camera (keyboardInput k objects st)) = eye (camera st)).
Proof.
  intros cand.
  do 6 (split; [vm_compute; reflexivity|]).
  split; [intros radians; vm_compute; reflexivity|].
  split; [intros radians; vm_compute; reflexivity|].
  split; [intros radians dx dy basis; rewrite frame_eye; vm_compute; reflexivity|].
  intros k objects st Hwall.
  assert (Hc : checkCollision (candidate k (deltaTime st) (camera st)) objects
               = true).
  { apply checkCollision_iff. left. rewrite <- inAnyBound_room.
    unfold roomBounds. cbn [inAnyBound]. rewrite Hwall.
    destruct (inBound (candidate k (deltaTime st) (camera st)) floorBound),
             (inBound (candidate k (deltaTime st) (camera st)) ceilingBound);
      reflexivity. }
  split; [exact Hc|].
  rewrite keyboardInput_eye, Hc. reflexivity.
Qed.

Lemma forward_move_from_start_witness :
  checkCollision (candidate onlyW (deltaTime intoWallState) (camera intoWallState))
                 [] = true /\
  eye (camera (keyboardInput onlyW [] intoWallState))
  = eye (camera intoWallState).
Proof.
  apply (proj2 (proj2 (proj2 (proj2 (proj2 (proj2 (proj2 (proj2 (proj2
           forward_move_from_start)))))))) onlyW [] intoWallState).
  vm_compute; reflexivity.
Defined.

(** C5 as stated fails: with the stated eye, front, speed and frame
    time the candidate is (0, -4, -0.5), inside no wall bound;
    [checkCollision] answers false on it, the move is kept and the eye
    changes.  (The scene is built here with the identity as angle
    conversion; no collision test reads an angle.) *)
Lemma forward_move_is_not_discarded :
  candidate onlyW (deltaTime forwardState) (camera forwardState)
    = mkVec3 p0_0 n4_0 n0_5 /\
  inAnyBound (candidate onlyW (deltaTime forwardState) (camera forwardState))
             wallBounds = false /\
  checkCollision (candidate onlyW (deltaTime forwardState) (camera forwardState))
                 [] = false /\
  checkCollision (candidate onlyW (deltaTime forwardState) (camera forwardState))
                 (sceneObjects (fun a => a)) = false /\
  eye (camera (keyboardInput onlyW (sceneObjects (fun a => a)) forwardState))
    <> eye (camera forwardState).
Proof.
  do 4 (split; [vm_compute; reflexivity|]).
  intros H; vm_compute in H; discriminate H.
Qed.

(** C6.  Containment in a room bound is inclusive on all six
    comparisons: a position whose coordinates lie between the faces of one
    of the six room bounds, faces included, is reported as contained by
    the room-bound loop, and [checkCollision] answers true on it; the
    extreme corners of every bound are contained; (0, 0, 0) lies in no
    room bound, and with an empty object list [checkCollision] answers
    false on it. *)
Theorem room_bounds_inclusive :
  (forall (p : vec3) (b : boxBound),
     In b roomBounds ->
     (xMin b <=? vx p) = true -> (vx p <=? xMax b) = true ->
     (yMin b <=? vy p) = true -> (vy p <=? yMax b) = true ->
     (zMin b <=? vz p) = true -> (vz p <=? zMax b) = true ->
     inAnyBound p roomBounds = true /\
     pointInRoomBounds p = true /\
     forall objects, checkCollision p objects = true) /\
  (forall b, In b roomBounds ->
     inBound (mkVec3 (xMin b) (yMin b) (zMin b)) b = true /\
     inBound (mkVec3 (xMax b) (yMax b) (zMax b)) b = true) /\
  inAnyBound (mkVec3 p0_0 p0_0 p0_0) roomBounds = false /\
  checkCollision (mkVec3 p0_0 p0_0 p0_0) [] = false.
Proof.
  split; [|split; [|split; vm_compute; reflexivity]].
  - intros p b Hin Hx1 Hx2 Hy1 Hy2 Hz1 Hz2.
    assert (Hb : inBound p b = true).
    { unfold inBound, F32.geb. fold F32.leb.
      rewrite Hx1, Hx2, Hy1, Hy2, Hz1, Hz2. reflexivity. }
    assert (Hroom : pointInRoomBounds p = true)
      by (apply pointInRoomBounds_iff; exists b; auto).
    split; [rewrite inAnyBound_room; exact Hroom|].
    split; [exact Hroom|].
    intros objects. apply checkCollision_iff. left; exact Hroom.
  - intros b Hin. cbn [roomBounds wallBounds In] in Hin.
    repeat (destruct Hin as [<-|Hin]; [split; vm_compute; reflexivity|]).
    contradiction.
Qed.

Lemma room_bounds_inclusive_witness :
  inAnyBound (mkVec3 p5_0 n4_5 n5_0) roomBounds = true.
Proof.
  apply (proj1 room_bounds_inclusive (mkVec3 p5_0 n4_5 n5_0) floorBound);
    solve [left; reflexivity | vm_compute; reflexivity].
Defined.

(** C7.  The sphere-box predicate is true for a sphere of radius one
    half centred at the centre of the unit box at the origin, and false
    for the same sphere centred at (10, 10, 10). *)
Theorem objectCollision_examples :
  objectCollision (mkVec3 p0_0 p0_0 p0_0) p0_5
                  (mkVec3 p0_0 p0_0 p0_0) (mkVec3 p1_0 p1_0 p1_0) = true /\
  objectCollision (mkVec3 p10_0 p10_0 p10_0) p0_5
                  (mkVec3 p0_0 p0_0 p0_0) (mkVec3 p1_0 p1_0 p1_0) = false.
Proof. split; vm_compute; reflexivity. Qed.

(** C8.  [checkCollision] answers true at the initial camera eye
    (0, -4, 4.5) whatever the object list, the empty one included: the
    eye lies on the face [zMin = 4.5] of the front-wall bound, which
    contains it, and in no other room bound. *)
Theorem initial_eye_collides :
  forall objects : list Object,
    checkCollision initialEye objects = true /\
    checkCollision initialEye [] = true /\
    initialEye = mkVec3 p0_0 n4_0 p4_5 /\
    vz initialEye = zMin frontWallBound /\
    inBound initialEye frontWallBound = true /\
    map (inBound initialEye) roomBounds =
      [false; false; false; true; false; false].
Proof.
  intros objects.
  assert (H : inAnyBound initialEye roomBounds = true)
    by (vm_compute; reflexivity).
  split; [unfold checkCollision; rewrite H; reflexivity|].
  repeat split; vm_compute; reflexivity.
Qed.

(** C9.  The candidate the keyboard step hands to [checkCollision] has
    height -4, outside the floor bound and outside the ceiling bound; so
    whenever the step rejects a move, that is whenever [checkCollision]
    answers true on the candidate and the eye is restored, the candidate
    lies in one of the four wall bounds or the sphere-box test succeeds
    against an object named "cube". *)
Theorem rejection_never_by_floor_or_ceiling :
  forall (k : Keys) (objects : list Object) (st : State),
    let cand := candidate k (deltaTime st) (camera st) in
    vy cand = F32.of_Z (-4) /\
    inBound cand floorBound = false /\
    inBound cand ceilingBound = false /\
    (checkCollision cand objects = true ->
       eye (camera (keyboardInput k objects st)) = eye (camera st) /\
       (inAnyBound cand wallBounds = true \/
        exists o, In o objects /\ name o = "cube"%string /\
                  objectCollision cand cameraRadius (position o) (scale o)
                  = true)).
Proof.
  intros k objects st cand.
  destruct (floor_level_outside_slabs cand (candidate_height _ _ _))
    as [Hfloor Hceil].
  split; [reflexivity|]. split; [exact Hfloor|]. split; [exact Hceil|].
  intros Hrej. split.
  - rewrite keyboardInput_eye. fold cand. rewrite Hrej. reflexivity.
  - apply checkCollision_iff in Hrej as [Hroom|Hcube]; [left|right; exact Hcube].
    rewrite <- inAnyBound_room in Hroom.
    unfold roomBounds in Hroom. cbn [inAnyBound] in Hroom.
    rewrite Hfloor, Hceil in Hroom. exact Hroom.
Qed.

Lemma rejection_never_by_floor_or_ceiling_witness :
  eye (camera (keyboardInput onlyW [] intoWallState))
  = eye (camera intoWallState) /\
  (inAnyBound (candidate onlyW (deltaTime intoWallState) (camera intoWallState))
              wallBounds = true \/
   exists o, In o [] /\ name o = "cube"%string /\
     objectCollision
       (candidate onlyW (deltaTime intoWallState) (camera intoWallState))
       cameraRadius (position o) (scale o) = true).
Proof.
  apply (proj2 (proj2 (proj2
           (rejection_never_by_floor_or_ceiling onlyW [] intoWallState)))).
  vm_compute; reflexivity.
Defined.

(** C10.  The sphere-box predicate is monotone in the radius: a hit at
    radius [r] is a hit at every radius [r'] with [r <= r'], and a miss at
    radius [r] is a miss at every radius [r'] with [r' <= r]. *)
Theorem objectCollision_radius_monotone :
  forall (c b s : vec3) (r r' : F32.float),
    (objectCollision c r b s = true -> (r <=? r') = true ->
     objectCollision c r' b s = true) /\
    (objectCollision c r b s = false -> (r' <=? r) = true ->
     objectCollision c r' b s = false).
Proof.
  intros c b s r r'. unfold objectCollision. split.
  - intros Hhit Hle. eapply ltb_leb_trans; eassumption.
  - intros Hmiss Hle.
    destruct (Vec3.length (Vec3.sub c (closestPoint c b s)) <? r') eqn:E;
      [|reflexivity].
    rewrite (ltb_leb_trans _ _ _ E Hle) in Hmiss. discriminate.
Qed.

Lemma objectCollision_radius_monotone_witness :
  objectCollision originPoint p1_0 originPoint unitScale = true /\
  objectCollision farPoint p0_5 originPoint unitScale = false.
Proof.
  split.
  - apply (proj1 (objectCollision_radius_monotone
                    originPoint originPoint unitScale p0_5 p1_0));
      vm_compute; reflexivity.
  - apply (proj2 (objectCollision_radius_monotone
                    farPoint originPoint unitScale p1_0 p0_5));
      vm_compute; reflexivity.
Defined.

End Claims.

(** * Further properties *)

Section Further.
Import F32Order CollisionFacts SphereBox MovementFacts.
Local Open Scope f32_scope.

Lemma hitsAnyCube_app (p : vec3) (l1 l2 : list Object) :
  hitsAnyCube p (l1 ++ l2) = hitsAnyCube p l1 || hitsAnyCube p l2.
Proof.
  rewrite !hitsAnyCube_existsb. apply existsb_app.
Qed.

Lemma hitsAnyCube_perm (p : vec3) (l1 l2 : list Object) :
  Permutation l1 l2 -> hitsAnyCube p l1 = hitsAnyCube p l2.
Proof.
  intros H. induction H as [|o l l' H IH|a b l|l l' l'' H1 IH1 H2 IH2].
  - reflexivity.
  - cbn [hitsAnyCube]. rewrite IH. reflexivity.
  - cbn [hitsAnyCube].
    destruct (isCube a), (isCube b); try reflexivity.
    destruct (objectCollision p cameraRadius (position a) (scale a)),
             (objectCollision p cameraRadius (position b) (scale b));
      reflexivity.
  - congruence.
Qed.

(** X1.  [checkCollision] on two lists put end to end is the
    disjunction of its answers on each, so adding objects never turns a
    collision into a free position, and its answer does not depend on the
    order of the objects. *)
Theorem checkCollision_append_and_order :
  forall (p : vec3) (l1 l2 : list Object),
    checkCollision p (l1 ++ l2) = checkCollision p l1 || checkCollision p l2 /\
    (checkCollision p l1 = true -> checkCollision p (l1 ++ l2) = true) /\
    (forall l1', Permutation l1 l1' -> checkCollision p l1 = checkCollision p l1').
Proof.
  intros p l1 l2.
  assert (E : checkCollision p (l1 ++ l2)
              = checkCollision p l1 || checkCollision p l2).
  { unfold checkCollision. rewrite hitsAnyCube_app.
    destruct (inAnyBound p roomBounds); [reflexivity|reflexivity]. }
  split; [exact E|]. split.
  - intros H. rewrite E, H. reflexivity.
  - intros l1' HP. unfold checkCollision.
    rewrite (hitsAnyCube_perm p l1 l1' HP). reflexivity.
Qed.

Lemma checkCollision_append_and_order_witness :
  checkCollision originPoint ([unitCube] ++ [mirroredCube]) = true /\
  checkCollision originPoint [unitCube; mirroredCube]
  = checkCollision originPoint [mirroredCube; unitCube].
Proof.
  split.
  - apply (proj1 (proj2 (checkCollision_append_and_order
                           originPoint [unitCube] [mirroredCube]))).
    vm_compute; reflexivity.
  - apply (proj2 (proj2 (checkCollision_append_and_order
                           originPoint [unitCube; mirroredCube] []))).
    apply perm_swap.
Defined.


(** *** NaN *)

Lemma ltb_nan_r (a : F32.float) : (a <? S754_nan) = false.
Proof. destruct a; reflexivity. Qed.

Lemma leb_nan_r (a : F32.float) : (a <=? S754_nan) = false.
Proof. destruct a; reflexivity. Qed.

Lemma add_nan_r (a : F32.float) : a + S754_nan = S754_nan.
Proof. destruct a; reflexivity. Qed.

Lemma sub_nan_r (a : F32.float) : a - S754_nan = S754_nan.
Proof. destruct a; reflexivity. Qed.

Lemma is_nan_eq (a : F32.float) : F32.is_nan a = true -> a = S754_nan.
Proof. destruct a; try discriminate; reflexivity. Qed.

(** One axis: a NaN in the sphere coordinate, the box coordinate or the
    half-extent makes the difference to the closest point a NaN. *)
Lemma closestAxis_nan (c b h : F32.float) :
  F32.is_nan c || F32.is_nan b || F32.is_nan h = true ->
  c - closestAxis c b h = S754_nan.
Proof.
  intros H. apply orb_true_iff in H as [H|H]; [apply orb_true_iff in H as [H|H]|];
    apply is_nan_eq in H; subst; unfold closestAxis, F32.fmax, F32.fmin.
  - rewrite ltb_nan_r. cbn [F32.ltb SFltb SFcompare].
    rewrite ltb_nan_r. reflexivity.
  - change (S754_nan - h) with S754_nan. change (S754_nan + h) with S754_nan.
    change (S754_nan <? c) with false. cbv iota.
    change (S754_nan <? c) with false. cbv iota. apply sub_nan_r.
  - rewrite sub_nan_r, add_nan_r.
    change (S754_nan <? c) with false. cbv iota.
    change (S754_nan <? c) with false. cbv iota. apply sub_nan_r.
Qed.

Lemma length_nan (v : vec3) :
  hasNaN v = true -> Vec3.length v = S754_nan.
Proof.
  unfold hasNaN, Vec3.length, Vec3.dot. intros H.
  apply orb_true_iff in H as [H|H]; [apply orb_true_iff in H as [H|H]|];
    apply is_nan_eq in H; rewrite H.
  - reflexivity.
  - change (S754_nan * S754_nan) with S754_nan. rewrite add_nan_r. reflexivity.
  - change (S754_nan * S754_nan) with S754_nan. rewrite add_nan_r. reflexivity.
Qed.

Lemma objectCollision_nan (c : vec3) (r : F32.float) (b s : vec3) :
  hasNaN c || F32.is_nan r || hasNaN b || hasNaN s = true ->
  objectCollision c r b s = false.
Proof.
  intros H. unfold objectCollision.
  destruct (F32.is_nan r) eqn:Hr.
  { apply is_nan_eq in Hr. subst r. apply ltb_nan_r. }
  rewrite orb_false_r in H.
  rewrite length_nan; [reflexivity|].
  unfold hasNaN in *. unfold closestPoint.
  cbn [Vec3.sub Vec3.scale_r vx vy vz].
  assert (Hs : forall a, F32.is_nan a = true -> F32.is_nan (a * p0_5) = true)
    by (intros a Ha; apply is_nan_eq in Ha; subst; reflexivity).
  repeat match type of H with
  | _ || _ = true => apply orb_true_iff in H; destruct H as [H|H]
  end;
  repeat (apply orb_true_iff; first
    [ left; apply orb_true_iff; left; rewrite closestAxis_nan; [reflexivity|];
      rewrite ?H, ?(Hs _ H), ?orb_true_r; reflexivity
    | left; apply orb_true_iff; right; rewrite closestAxis_nan; [reflexivity|];
      rewrite ?H, ?(Hs _ H), ?orb_true_r; reflexivity
    | right; rewrite closestAxis_nan; [reflexivity|];
      rewrite ?H, ?(Hs _ H), ?orb_true_r; reflexivity ]).
Qed.

Lemma inBound_nan (p : vec3) (b : boxBound) :
  hasNaN p = true -> inBound p b = false.
Proof.
  unfold hasNaN, inBound, F32.geb. fold F32.leb. intros H.
  apply orb_true_iff in H as [H|H]; [apply orb_true_iff in H as [H|H]|];
    apply is_nan_eq in H; rewrite H, !leb_nan_r;
    rewrite ?andb_false_r; reflexivity.
Qed.

(** X4.  A position with a NaN coordinate collides with nothing: every
    comparison of the room-bound loop fails and so does every sphere-box
    test; more generally [objectCollision] answers false as soon as a
    coordinate of the sphere centre, the radius, a coordinate of the box
    centre or a component of the box scale is a NaN. *)
Theorem nan_never_collides :
  forall (p : vec3) (objects : list Object),
    (hasNaN p = true -> checkCollision p objects = false) /\
    (forall r b s,
       hasNaN p || F32.is_nan r || hasNaN b || hasNaN s = true ->
       objectCollision p r b s = false).
Proof.
  intros p objects. split; [|intros r b s; apply objectCollision_nan].
  intros H. unfold checkCollision.
  assert (Hb : inAnyBound p roomBounds = false).
  { induction roomBounds as [|b rest IH]; [reflexivity|].
    cbn [inAnyBound]. rewrite (inBound_nan p b H). exact IH. }
  rewrite Hb. induction objects as [|o rest IH]; [reflexivity|].
  cbn [hitsAnyCube]. rewrite IH, objectCollision_nan.
  - destruct (isCube o); reflexivity.
  - rewrite H. reflexivity.
Qed.

Lemma nan_never_collides_witness :
  checkCollision nanPoint [unitCube] = false /\
  objectCollision nanPoint p0_5 originPoint unitScale = false.
Proof.
  split.
  - apply (proj1 (nan_never_collides nanPoint [unitCube])). reflexivity.
  - apply (proj2 (nan_never_collides nanPoint [unitCube])). reflexivity.
Defined.


(** *** The distance is never negative *)

Lemma shr_1_nonneg (x : shr_record) : (0 <= shr_m x)%Z -> (0 <= shr_m (shr_1 x))%Z.
Proof.
  intros H. destruct (Rounding.shr_1_fields x H) as [E _]. rewrite E.
  apply Z.div_pos; lia.
Qed.

Lemma iter_shr_1_nonneg (p : positive) :
  forall x : shr_record,
    (0 <= shr_m x)%Z -> (0 <= shr_m (iter_pos shr_1 p x))%Z.
Proof.
  induction p as [p IH|p IH|]; intros x H; cbn [iter_pos].
  - apply IH, IH, shr_1_nonneg, H.
  - apply IH, IH, H.
  - apply shr_1_nonneg, H.
Qed.

Lemma shr_nonneg (x : shr_record) (e n : Z) :
  (0 <= shr_m x)%Z -> (0 <= shr_m (fst (shr x e n)))%Z.
Proof.
  intros H. destruct n as [|p|p]; cbn [shr fst]; try exact H.
  apply iter_shr_1_nonneg, H.
Qed.

Lemma shr_record_of_loc_m (m : Z) (l : location) :
  shr_m (shr_record_of_loc m l) = m.
Proof. destruct l as [|[]]; reflexivity. Qed.

Lemma round_nearest_even_nonneg (m : Z) (l : location) :
  (0 <= m)%Z -> (0 <= round_nearest_even m l)%Z.
Proof.
  intros H. destruct l as [|[]]; cbn [round_nearest_even]; try lia.
  destruct (Z.even m); lia.
Qed.

(** Whatever the location bits, rounding keeps the sign and gives no
    NaN. *)
Lemma binary_round_aux_sign_any (sx : bool) (M e : Z) (l : location) :
  (0 <= M)%Z ->
  RoundSpec.has_sign sx (binary_round_aux F32.prec F32.emax sx M e l).
Proof.
  intros HM. unfold binary_round_aux, shr_fexp.
  pose proof (shr_nonneg (shr_record_of_loc M l) e
                (fexp F32.prec F32.emax (Zdigits2 M + e) - e)) as H1.
  rewrite shr_record_of_loc_m in H1. specialize (H1 HM).
  destruct (shr (shr_record_of_loc M l) e _) as [mrs' e']. cbn [fst] in H1.
  pose proof (round_nearest_even_nonneg _ (loc_of_shr_record mrs') H1) as H2.
  set (m1 := round_nearest_even (shr_m mrs') (loc_of_shr_record mrs')) in *.
  pose proof (shr_nonneg (shr_record_of_loc m1 loc_Exact) e'
                (fexp F32.prec F32.emax (Zdigits2 m1 + e') - e')) as H3.
  rewrite shr_record_of_loc_m in H3. specialize (H3 H2).
  destruct (shr (shr_record_of_loc m1 loc_Exact) e' _) as [mrs'' e''].
  cbn [fst] in H3.
  destruct (shr_m mrs''); try lia; [reflexivity|].
  destruct (_ <=? _)%Z; reflexivity.
Qed.

Lemma sqrt_notNegative (x : F32.float) : notNegative (F32.sqrt x).
Proof.
  destruct x as [s|[]| |[] m e]; try exact I; try reflexivity.
  unfold F32.sqrt. cbn [SFsqrt].
  destruct (SFsqrt_core_binary F32.prec F32.emax (Z.pos m) e) as [[mz ez] lz] eqn:E.
  assert (Hmz : (0 <= mz)%Z).
  { unfold SFsqrt_core_binary in E.
    set (m' := match (e - 2 * _)%Z with Z.pos _ => _ | Z0 => _ | Z.neg _ => _ end) in E.
    assert (Hm' : (0 <= m')%Z).
    { unfold m'. destruct (e - 2 * _)%Z; try lia.
      apply Z.shiftl_nonneg. lia. }
    pose proof (Z.sqrtrem_spec m' Hm') as Hs.
    destruct (Z.sqrtrem m') as [q r]. injection E as <- _ _. nia. }
  pose proof (binary_round_aux_sign_any false mz ez lz Hmz) as Hs.
  destruct (binary_round_aux _ _ _ _ _ _); cbn in Hs |- *; auto.
Qed.

Lemma notNegative_not_below (d r : F32.float) :
  notNegative d -> nonpos r = true -> (d <? r) = false.
Proof.
  unfold nonpos.
  destruct d as [[]|[]| |[] ? ?], r as [[]|[]| |[] ? ?]; cbn; intros H1 H2;
    try reflexivity; try discriminate; try contradiction.
Qed.

(** X5.  A sphere whose radius is zero or negative collides with no
    box, wherever its centre is: the computed distance is never
    negative. *)
Theorem nonpositive_radius_never_collides :
  forall (c : vec3) (r : F32.float) (b s : vec3),
    nonpos r = true -> objectCollision c r b s = false.
Proof.
  intros c r b s Hr. unfold objectCollision, Vec3.length.
  apply notNegative_not_below; [apply sqrt_notNegative|exact Hr].
Qed.

Lemma nonpositive_radius_never_collides_witness :
  objectCollision originPoint p0_0 originPoint unitScale = false.
Proof.
  apply (nonpositive_radius_never_collides originPoint p0_0 originPoint unitScale).
  reflexivity.
Defined.

(** *** A sphere centred inside the box *)

Lemma closestAxis_inside (c b h : F32.float) :
  F32.is_finite c = true ->
  (b - h <=? c) = true -> (c <=? b + h) = true ->
  F32.is_zero (c - closestAxis c b h) = true.
Proof.
  intros Hf Hlo Hhi. unfold closestAxis, F32.fmin.
  rewrite (leb_not_ltb _ _ Hhi). unfold F32.fmax.
  destruct (b - h <? c) eqn:Hlt.
  - apply sub_diag_zero; exact Hf.
  - apply sub_same_value_zero; [exact Hf|].
    apply leb_antisym; [|exact Hlo].
    apply not_ltb_leb; [eapply leb_not_nan_l; exact Hlo| |exact Hlt].
    eapply leb_not_nan_r; exact Hlo.
Qed.

Lemma zero_vector_length (v : vec3) :
  F32.is_zero (vx v) = true -> F32.is_zero (vy v) = true ->
  F32.is_zero (vz v) = true ->
  forall r, (Vec3.length v <? r) = (p0_0 <? r).
Proof.
  destruct v as [[a| | |] [b| | |] [c| | |]]; simpl; try discriminate.
  intros _ _ _ r. destruct a, b, c; reflexivity.
Qed.

(** X6.  When the sphere centre is finite and lies between the faces of
    the box on every axis, faces included, the computed distance is zero
    and [objectCollision] answers true exactly when the radius is
    positive. *)
Theorem sphere_centred_inside_box :
  forall (c : vec3) (r : F32.float) (b s : vec3),
    insideBox c b s = true ->
    objectCollision c r b s = (p0_0 <? r).
Proof.
  intros c r b s H.
  unfold insideBox, boxLow, boxHigh, Vec3.is_finite in H.
  cbn [Vec3.sub Vec3.add Vec3.scale_r vx vy vz] in H.
  repeat match goal with
  | H : _ && _ = true |- _ => apply andb_true_iff in H; destruct H
  end.
  unfold objectCollision, closestPoint.
  apply zero_vector_length; cbn [Vec3.sub Vec3.scale_r vx vy vz];
    apply closestAxis_inside; assumption.
Qed.

Lemma sphere_centred_inside_box_witness :
  objectCollision (mkVec3 p0_5 n0_5 p0_0) p0_5 originPoint unitScale
  = (p0_0 <? p0_5).
Proof.
  apply (sphere_centred_inside_box (mkVec3 p0_5 n0_5 p0_0) p0_5
           originPoint unitScale).
  vm_compute; reflexivity.
Defined.


(** *** The keyboard step *)

Lemma set_y_same (v : vec3) : Vec3.set_y v (vy v) = v.
Proof. destruct v; reflexivity. Qed.

Lemma displaced_noMoveKey (k : Keys) (dt : F32.float) (c : Camera) :
  noMoveKey k = true -> displaced k dt c = eye c.
Proof.
  unfold noMoveKey, displaced. intros H.
  apply negb_true_iff in H.
  destruct (keyW k), (keyS k), (keyA k), (keyD k); try discriminate.
  reflexivity.
Qed.

(** X7.  With none of the four movement keys pressed, the keyboard step
    leaves the whole camera as it was when the eye is at height -4 (as it
    is in every state the render loop reaches), whether or not the eye's
    position collides. *)
Theorem idle_step_keeps_camera :
  forall (k : Keys) (objects : list Object) (st : State),
    noMoveKey k = true ->
    vy (eye (camera st)) = floorLevel ->
    camera (keyboardInput k objects st) = camera st.
Proof.
  intros k objects st Hk Hy.
  rewrite keyboardInput_camera. unfold candidate.
  rewrite (displaced_noMoveKey _ _ _ Hk), <- Hy, set_y_same.
  destruct (checkCollision _ objects); destruct (camera st); reflexivity.
Qed.

Lemma idle_step_keeps_camera_witness :
  camera (keyboardInput noKeys [] startState) = camera startState.
Proof.
  apply (idle_step_keeps_camera noKeys [] startState); reflexivity.
Defined.

(** *** The render loop *)

(** X8.  In every state the render loop reaches, the eye is the initial
    eye or a position on which [checkCollision] answers false for the
    scene's objects: the loop never moves the camera into a colliding
    position. *)
Theorem reachable_eye_is_free :
  forall (objects : list Object) (st : State),
    reachable objects st ->
    eye (camera st) = initialEye \/
    checkCollision (eye (camera st)) objects = false.
Proof.
  intros objects st H.
  induction H as [st (He & _)|st inp Hr IH Hopen].
  - left; exact He.
  - rewrite frame_eye, keyboardInput_eye.
    cbn [updateTimer camera deltaTime].
    destruct (checkCollision (candidate _ _ _) objects) eqn:E.
    + exact IH.
    + right; exact E.
Qed.

Lemma reachable_eye_is_free_witness :
  eye (camera (frame (mkFrameInput p1_0 onlyW p0_0 p0_0
                        (mkBasis worldUp worldUp worldUp)) [] startState))
    = initialEye \/
  checkCollision
    (eye (camera (frame (mkFrameInput p1_0 onlyW p0_0 p0_0
                           (mkBasis worldUp worldUp worldUp)) [] startState)))
    [] = false.
Proof.
  apply (reachable_eye_is_free []).
  apply reach_frame; [|reflexivity].
  apply reach_initial. repeat split.
Defined.


(** *** Zero offsets and zero frame time *)

Lemma same_value_trans (a b c : F32.float) :
  F32.same_value a b -> F32.same_value b c -> F32.same_value a c.
Proof.
  unfold F32.same_value. intros [->|[Ha Hb]] [->|[Hb' Hc]]; auto.
Qed.

Lemma add_zero_same_value (a z : F32.float) :
  F32.is_zero z = true -> F32.same_value (a + z) a.
Proof.
  destruct z as [sz| | |]; try discriminate. intros _.
  destruct a as [sa|sa| |sa ma ea]; try (left; reflexivity).
  right. destruct sa, sz; split; reflexivity.
Qed.

Lemma sub_zero_same_value (a z : F32.float) :
  F32.is_zero z = true -> F32.same_value (a - z) a.
Proof.
  destruct z as [sz| | |]; try discriminate. intros _.
  destruct a as [sa|sa| |sa ma ea]; try (left; reflexivity).
  right. destruct sa, sz; split; reflexivity.
Qed.

Lemma mul_zero_l (z a : F32.float) :
  F32.is_zero z = true -> F32.is_finite a = true -> F32.is_zero (z * a) = true.
Proof.
  destruct z as [sz| | |]; try discriminate.
  destruct a as [sa| | |sa ma ea]; try discriminate; reflexivity.
Qed.

(** X9.  With the cursor at the window centre (both offsets zero),
    [mouseInput] leaves yaw and pitch at their values. *)
Theorem mouse_at_rest_keeps_angles :
  forall (dx dy : F32.float) (b : Basis) (st : State),
    F32.is_zero dx = true -> F32.is_zero dy = true ->
    F32.same_value (yaw (camera (mouseInput dx dy b st))) (yaw (camera st)) /\
    F32.same_value (pitch (camera (mouseInput dx dy b st))) (pitch (camera st)).
Proof.
  intros dx dy b st Hx Hy. cbn [mouseInput set_camera camera yaw pitch].
  split; apply add_zero_same_value.
  - destruct dx as [[]| | |]; try discriminate; reflexivity.
  - destruct dy as [[]| | |]; try discriminate; reflexivity.
Qed.

Lemma mouse_at_rest_keeps_angles_witness :
  F32.same_value
    (yaw (camera (mouseInput p0_0 n0_0 (mkBasis worldUp worldUp worldUp)
                    startState)))
    (yaw (camera startState)).
Proof.
  apply (proj1 (mouse_at_rest_keeps_angles p0_0 n0_0
                  (mkBasis worldUp worldUp worldUp) startState
                  eq_refl eq_refl)).
Defined.

Lemma stride_zero (dt : F32.float) (d : vec3) :
  F32.is_zero dt = true -> Vec3.is_finite d = true ->
  F32.is_zero (vx (stride dt d)) = true /\
  F32.is_zero (vy (stride dt d)) = true /\
  F32.is_zero (vz (stride dt d)) = true.
Proof.
  intros Hdt Hd. unfold Vec3.is_finite in Hd.
  apply andb_true_iff in Hd as [Hd Hz]. apply andb_true_iff in Hd as [Hx Hy].
  assert (H5 : F32.is_zero (p5_0 * dt) = true)
    by (destruct dt as [[]| | |]; try discriminate; reflexivity).
  unfold stride. cbn [Vec3.scale_l vx vy vz].
  repeat split; apply mul_zero_l; assumption.
Qed.

Lemma sameValues_add_zero (a b z : vec3) :
  F32.is_zero (vx z) = true /\ F32.is_zero (vy z) = true /\
  F32.is_zero (vz z) = true ->
  sameValues a b -> sameValues (Vec3.add a z) b /\ sameValues (Vec3.sub a z) b.
Proof.
  intros (Zx & Zy & Zz) (Hx & Hy & Hz). unfold sameValues.
  cbn [Vec3.add Vec3.sub vx vy vz].
  repeat split;
    (eapply same_value_trans;
     [first [apply add_zero_same_value|apply sub_zero_same_value]; assumption
     |assumption]).
Qed.

Lemma displaced_zero_time (k : Keys) (dt : F32.float) (c : Camera) :
  F32.is_zero dt = true ->
  Vec3.is_finite (front c) = true -> Vec3.is_finite (right c) = true ->
  sameValues (displaced k dt c) (eye c).
Proof.
  intros Hdt Hf Hr.
  pose proof (stride_zero dt (front c) Hdt Hf) as Zf.
  pose proof (stride_zero dt (right c) Hdt Hr) as Zr.
  assert (H0 : sameValues (eye c) (eye c))
    by (repeat split; left; reflexivity).
  unfold displaced.
  destruct (keyW k), (keyS k), (keyA k), (keyD k);
    repeat first [ exact H0
                 | apply (sameValues_add_zero _ _ _ Zr)
                 | apply (sameValues_add_zero _ _ _ Zf) ].
Qed.

(** X10.  When no time has passed since the previous frame
    ([deltaTime] zero) and the front and right vectors are finite, the
    keyboard step leaves every coordinate of an eye at height -4 at its
    value, whatever keys are pressed. *)
Theorem zero_frame_time_no_move :
  forall (k : Keys) (objects : list Object) (st : State),
    F32.is_zero (deltaTime st) = true ->
    Vec3.is_finite (front (camera st)) = true ->
    Vec3.is_finite (right (camera st)) = true ->
    vy (eye (camera st)) = floorLevel ->
    sameValues (eye (camera (keyboardInput k objects st))) (eye (camera st)).
Proof.
  intros k objects st Hdt Hf Hr Hy.
  rewrite keyboardInput_eye.
  destruct (checkCollision _ objects).
  - repeat split; left; reflexivity.
  - destruct (displaced_zero_time k _ _ Hdt Hf Hr) as (Hx & _ & Hz).
    unfold candidate, sameValues. cbn [Vec3.set_y vx vy vz].
    repeat split; try assumption. left. symmetry. exact Hy.
Qed.

Lemma zero_frame_time_no_move_witness :
  sameValues (eye (camera (keyboardInput onlyW [] startState)))
             (eye (camera startState)).
Proof.
  apply (zero_frame_time_no_move onlyW [] startState); reflexivity.
Defined.


(** *** The room shell *)

Lemma ltb_is_not_leb (a b : F32.float) :
  F32.is_nan a = false -> F32.is_nan b = false ->
  (a <? b) = negb (b <=? a).
Proof.
  intros Ha Hb. destruct (a <? b) eqn:E.
  - destruct (b <=? a) eqn:E'; [|reflexivity].
    rewrite (leb_not_ltb _ _ E') in E. discriminate.
  - rewrite (not_ltb_leb _ _ Ha Hb E). reflexivity.
Qed.

(** One axis against four marks [a < b < c < d]: the outer range
    [a..d], the low slab [a..b], the middle range [b..c], the high slab
    [c..d] and the open interior between [b] and [c]. *)
Lemma axis_regions (v a b c d : F32.float) :
  (a <? b) = true -> (b <? c) = true -> (c <? d) = true ->
  let o := (a <=? v) && (v <=? d) in
  let l := (a <=? v) && (v <=? b) in
  let m := (b <=? v) && (v <=? c) in
  let h := (c <=? v) && (v <=? d) in
  let i := (b <? v) && (v <? c) in
  o = l || m || h /\ i = m && negb l && negb h /\
  i = o && negb l && negb h.
Proof.
  intros Hab Hbc Hcd.
  destruct (F32.is_nan v) eqn:Hv.
  { apply is_nan_eq in Hv. subst v. cbv zeta.
    rewrite !leb_nan_r, !ltb_nan_r, !andb_false_r. repeat split. }
  pose proof (ltb_not_nan_l _ _ Hab) as Na.
  pose proof (ltb_not_nan_l _ _ Hbc) as Nb.
  pose proof (ltb_not_nan_l _ _ Hcd) as Nc.
  pose proof (ltb_not_nan_r _ _ Hcd) as Nd.
  rewrite (ltb_is_not_leb b v Nb Hv), (ltb_is_not_leb v c Hv Nc).
  assert (f1 : (v <=? b) = true -> (v <=? d) = true).
  { intros H. eapply leb_trans; [exact H|].
    apply ltb_leb. eapply ltb_leb_trans; [exact Hbc|apply ltb_leb; exact Hcd]. }
  assert (f2 : (c <=? v) = true -> (a <=? v) = true).
  { intros H. eapply leb_trans; [|exact H].
    apply ltb_leb. eapply ltb_leb_trans; [exact Hab|apply ltb_leb; exact Hbc]. }
  assert (f3 : (v <=? b) = false -> (b <=? v) = true).
  { intros H. apply not_ltb_leb; try assumption.
    destruct (v <? b) eqn:E; [|reflexivity].
    rewrite (ltb_leb _ _ E) in H. discriminate. }
  assert (f4 : (c <=? v) = false -> (v <=? c) = true).
  { intros H. apply not_ltb_leb; try assumption.
    destruct (c <? v) eqn:E; [|reflexivity].
    rewrite (ltb_leb _ _ E) in H. discriminate. }
  assert (f5 : (b <=? v) = true -> (a <=? v) = true).
  { intros H. eapply leb_trans; [apply ltb_leb; exact Hab|exact H]. }
  assert (f6 : (v <=? c) = true -> (v <=? d) = true).
  { intros H. eapply leb_trans; [exact H|apply ltb_leb; exact Hcd]. }
  assert (f7 : (v <=? b) = true -> (v <=? c) = true).
  { intros H. eapply leb_trans; [exact H|apply ltb_leb; exact Hbc]. }
  assert (f8 : (c <=? v) = true -> (b <=? v) = true).
  { intros H. eapply leb_trans; [apply ltb_leb; exact Hbc|exact H]. }
  assert (f9 : (v <=? b) = true -> (c <=? v) = true -> False).
  { intros H1 H2. pose proof (leb_trans _ _ _ H2 H1) as H.
    rewrite (leb_not_ltb _ _ H) in Hbc. discriminate. }
  destruct (a <=? v), (v <=? b), (b <=? v), (v <=? c), (c <=? v), (v <=? d);
    cbn; try (repeat split; reflexivity); exfalso;
    repeat match goal with
    | H : ?x = ?x -> _ |- _ => specialize (H eq_refl)
    end;
    try discriminate; try assumption.
Qed.

Lemma axis_slabs_in_range (v a b c d : F32.float) :
  (a <? b) = true -> (b <? c) = true -> (c <? d) = true ->
  ((a <=? v) && (v <=? b) = true -> (a <=? v) && (v <=? d) = true) /\
  ((c <=? v) && (v <=? d) = true -> (a <=? v) && (v <=? d) = true).
Proof.
  intros Hab Hbc Hcd.
  destruct (axis_regions v a b c d Hab Hbc Hcd) as (Ho & _ & _).
  cbv zeta in Ho. rewrite Ho. split; intros ->.
  - reflexivity.
  - apply orb_true_r.
Qed.

Lemma room_shell :
  forall p : vec3,
    pointInRoomBounds p = inOuterBox p && negb (inOpenRoom p).
Proof.
  intros [x y z]. unfold pointInRoomBounds, inOuterBox, inOpenRoom.
  unfold roomBounds, wallBounds. cbn [existsb].
  unfold inBound, F32.geb. fold F32.leb.
  cbn [xMin xMax yMin yMax zMin zMax floorBound ceilingBound backWallBound
       frontWallBound leftWallBound rightWallBound vx vy vz].
  destruct (axis_regions x n5_0 n4_5 p4_5 p5_0) as (_ & _ & Ix);
    try reflexivity.
  destruct (axis_slabs_in_range x n5_0 n4_5 p4_5 p5_0) as (Lx & Hx);
    try reflexivity.
  destruct (axis_regions z n5_0 n4_5 p4_5 p5_0) as (_ & _ & Iz);
    try reflexivity.
  destruct (axis_slabs_in_range z n5_0 n4_5 p4_5 p5_0) as (Lz & Hz);
    try reflexivity.
  destruct (axis_regions y n5_0 n4_5 p2_5 p3_0) as (Oy & Iy & _);
    try reflexivity.
  cbv zeta in Ix, Iz, Oy, Iy.
  set (ox := (n5_0 <=? x) && (x <=? p5_0)) in *.
  set (lx := (n5_0 <=? x) && (x <=? n4_5)) in *.
  set (hx := (p4_5 <=? x) && (x <=? p5_0)) in *.
  set (ix := (n4_5 <? x) && (x <? p4_5)) in *.
  set (oz := (n5_0 <=? z) && (z <=? p5_0)) in *.
  set (lz := (n5_0 <=? z) && (z <=? n4_5)) in *.
  set (hz := (p4_5 <=? z) && (z <=? p5_0)) in *.
  set (iz := (n4_5 <? z) && (z <? p4_5)) in *.
  set (oy := (n5_0 <=? y) && (y <=? p3_0)) in *.
  set (ly := (n5_0 <=? y) && (y <=? n4_5)) in *.
  set (my := (n4_5 <=? y) && (y <=? p2_5)) in *.
  set (hy := (p2_5 <=? y) && (y <=? p3_0)) in *.
  set (iy := (n4_5 <? y) && (y <? p2_5)) in *.
  enough (G : ox && ly && oz || (ox && hy && oz || (ox && my && lz
              || (ox && my && hz || (lx && my && oz || (hx && my && oz
              || false)))))
              = ox && oy && oz && negb (ix && iy && iz)).
  { unfold ox, lx, hx, ix, oz, lz, hz, iz, oy, ly, my, hy, iy in G |- *.
    repeat rewrite <- andb_assoc in G. repeat rewrite <- andb_assoc.
    exact G. }
  rewrite Ix, Iz, Iy, Oy.
  destruct ox, lx, hx, oz, lz, hz, ly, my, hy; cbn; try reflexivity; exfalso;
    repeat match goal with
    | H : ?a = ?a -> _ |- _ => specialize (H eq_refl)
    end;
    discriminate.
Qed.


(** *** The frame time *)

Lemma canonical_digits (m : positive) (e : Z) :
  RoundSpec.fexp32 (Zpos (digits2_pos m) + e) = e ->
  (Zpos m < 2 ^ 24 /\ -149 <= e /\ (-149 < e -> 2 ^ 23 <= Zpos m))%Z.
Proof.
  rewrite Rounding.fexp32_eq. intros H.
  destruct (Rounding.digits2_pos_bounds m) as [Hlo Hhi].
  assert (Hd : (Zpos (digits2_pos m) <= 24)%Z) by lia.
  split; [|split; [lia|]].
  - assert (2 ^ Zpos (digits2_pos m) <= 2 ^ 24)%Z
      by (apply Z.pow_le_mono_r; lia).
    lia.
  - intros He. assert (Hd24 : Zpos (digits2_pos m) = 24%Z) by lia.
    rewrite Hd24 in Hlo. exact Hlo.
Qed.

(** For binary32 numbers the order read off exponent and mantissa is
    the order of the values. *)
Lemma leb_finite_value (m1 m2 : positive) (e1 e2 : Z) :
  RoundSpec.fexp32 (Zpos (digits2_pos m1) + e1) = e1 ->
  RoundSpec.fexp32 (Zpos (digits2_pos m2) + e2) = e2 ->
  SFleb (S754_finite false m1 e1) (S754_finite false m2 e2) = true ->
  (Zpos m1 * 2 ^ (e1 - Z.min e1 e2) <= Zpos m2 * 2 ^ (e2 - Z.min e1 e2))%Z.
Proof.
  intros C1 C2. unfold SFleb. cbn [SFcompare].
  change (PosDef.Pos.compare_cont Eq m1 m2) with (Pos.compare m1 m2).
  destruct (canonical_digits m1 e1 C1) as (H1 & He1 & _).
  destruct (canonical_digits m2 e2 C2) as (_ & _ & H2).
  destruct (Z.compare_spec e1 e2) as [->|Hlt|Hgt]; try discriminate.
  - rewrite Z.min_id, Z.sub_diag, Z.pow_0_r.
    destruct (Pos.compare_spec m1 m2); try discriminate; lia.
  - intros _. replace (Z.min e1 e2) with e1 by lia.
    rewrite Z.sub_diag, Z.pow_0_r.
    assert (2 ^ 1 <= 2 ^ (e2 - e1))%Z by (apply Z.pow_le_mono_r; lia).
    specialize (H2 ltac:(lia)). change (2 ^ 24)%Z with (2 * 2 ^ 23)%Z in H1.
    change (2 ^ 1)%Z with 2%Z in H. nia.
Qed.

Lemma normalize_nonneg (N e : Z) :
  (0 <= N)%Z -> F32.nonneg (binary_normalize F32.prec F32.emax N e false) = true.
Proof.
  intros H. destruct N as [|p|p]; try lia; cbn [binary_normalize].
  - reflexivity.
  - apply Rounding.leb_zero_nonnegative, Rounding.binary_round_sign.
Qed.

Lemma sub_of_ordered_nonneg (t p : F32.float) :
  F32.valid t = true -> F32.valid p = true ->
  F32.is_finite t = true -> F32.is_finite p = true ->
  (p <=? t) = true -> F32.nonneg (t - p) = true.
Proof.
  intros Vt Vp Ft Fp Hle.
  destruct t as [st| | |st mt et]; try discriminate;
    destruct p as [sp| | |sp mp ep]; try discriminate.
  - destruct st, sp; reflexivity.
  - destruct sp; [reflexivity|discriminate].
  - destruct st; [discriminate|reflexivity].
  - destruct (Rounding.valid_finite _ _ _ Vt) as [Ct _].
    destruct (Rounding.valid_finite _ _ _ Vp) as [Cp _].
    unfold F32.sub. cbn [SFsub]. apply normalize_nonneg.
    destruct (Rounding.shl_align_value mt et (Z.min et ep)) as [_ Ht].
    destruct (Rounding.shl_align_value mp ep (Z.min et ep)) as [_ Hp].
    rewrite Z.min_assoc, Z.min_id in Ht.
    rewrite (Z.min_comm et ep), Z.min_assoc, Z.min_id in Hp.
    rewrite (Z.min_comm ep et) in Hp.
    rewrite Ht, Hp.
    assert (0 < 2 ^ (et - Z.min et ep))%Z by (apply Z.pow_pos_nonneg; lia).
    assert (0 < 2 ^ (ep - Z.min et ep))%Z by (apply Z.pow_pos_nonneg; lia).
    destruct st, sp; cbn [cond_Zopp].
    + (* both negative *)
      assert (Hle' : SFleb (S754_finite false mt et) (S754_finite false mp ep) = true).
      { revert Hle. unfold F32.leb, SFleb. cbn [SFcompare].
        rewrite (Z.compare_antisym ep et).
        change (PosDef.Pos.compare_cont Eq mp mt) with (Pos.compare mp mt).
        change (PosDef.Pos.compare_cont Eq mt mp) with (Pos.compare mt mp).
        rewrite (Pos.compare_antisym mp mt).
        destruct (ep ?= et)%Z; destruct (mp ?= mt)%positive; auto. }
      pose proof (leb_finite_value mt mp et ep Ct Cp Hle'). lia.
    + discriminate.
    + lia.
    + pose proof (leb_finite_value mp mt ep et Cp Ct Hle) as Hv.
      rewrite (Z.min_comm ep et) in Hv. lia.
Qed.

(** X11.  When the clock does not run backwards (the new time, a finite
    binary32 number, is not below the finite previous time), the timer
    update leaves a frame time that is not negative, and records the new
    time as the previous one. *)
Theorem frame_time_nonneg :
  forall (time : F32.float) (st : State),
    F32.valid time = true -> F32.valid (previousTime st) = true ->
    F32.is_finite time = true -> F32.is_finite (previousTime st) = true ->
    (previousTime st <=? time) = true ->
    F32.nonneg (deltaTime (updateTimer time st)) = true /\
    previousTime (updateTimer time st) = time.
Proof.
  intros time st Vt Vp Ft Fp Hle. split; [|reflexivity].
  cbn [updateTimer deltaTime]. apply sub_of_ordered_nonneg; assumption.
Qed.

Lemma frame_time_nonneg_witness :
  F32.nonneg (deltaTime (updateTimer p1_5 forwardState)) = true.
Proof.
  apply (proj1 (frame_time_nonneg p1_5 forwardState
                  eq_refl eq_refl eq_refl eq_refl eq_refl)).
Defined.


(** *** Leaving the room *)

(** X2.  The six room bounds form a shell: a position lies in one of
    them exactly when it is inside the box from (-5, -5, -5) to (5, 3, 5)
    and not in the open room from (-4.5, -4.5, -4.5) to (4.5, 2.5, 4.5).
    So [checkCollision] answers true exactly on the shell and where a cube
    is hit; outside the outer box, as inside the open room, only cubes
    count. *)
Theorem checkCollision_shell_or_cubes :
  forall (p : vec3) (objects : list Object),
    inAnyBound p roomBounds = inOuterBox p && negb (inOpenRoom p) /\
    checkCollision p objects =
    inOuterBox p && negb (inOpenRoom p) || hitsAnyCube p objects.
Proof.
  intros p objects. unfold checkCollision.
  rewrite inAnyBound_room, room_shell. split; [reflexivity|].
  destruct (inOuterBox p && negb (inOpenRoom p)); reflexivity.
Qed.

(** X3.  The walls do not stop a step that jumps over them: when the
    candidate of the keyboard step lies outside the outer box of the room
    and hits no cube, the step keeps it.  From the start position, facing
    the front wall, one second of the W key puts the eye at
    (0, -4, 9.5). *)
Theorem walls_do_not_stop_a_leap :
  forall (k : Keys) (objects : list Object) (st : State),
    inOuterBox (candidate k (deltaTime st) (camera st)) = false ->
    hitsAnyCube (candidate k (deltaTime st) (camera st)) objects = false ->
    eye (camera (keyboardInput k objects st))
    = candidate k (deltaTime st) (camera st).
Proof.
  intros k objects st Ho Hc.
  rewrite keyboardInput_eye. unfold checkCollision.
  rewrite inAnyBound_room, room_shell, Ho, Hc. reflexivity.
Qed.

Lemma walls_do_not_stop_a_leap_witness :
  eye (camera (keyboardInput onlyW (sceneObjects (fun a => a)) leapState))
  = mkVec3 p0_0 n4_0 (F32.of_dyadic 19 (-1)).
Proof.
  exact (walls_do_not_stop_a_leap onlyW (sceneObjects (fun a => a)) leapState
           eq_refl eq_refl).
Defined.

End Further.

(** ** The distance of the sphere-box predicate *)

Section Distance.
Import F32Order CollisionFacts SphereBox.
Local Open Scope f32_scope.

Lemma sameDatum_eq (a b : F32.float) : sameDatum a b = true -> a = b.
Proof.
  destruct a as [s| s| |s m e], b as [s'| s'| |s' m' e']; cbn;
    try discriminate; try reflexivity.
  - intros H. apply Bool.eqb_prop in H. congruence.
  - intros H. apply Bool.eqb_prop in H. congruence.
  - intros H. apply andb_true_iff in H as [H He].
    apply andb_true_iff in H as [Hs Hm].
    apply Bool.eqb_prop in Hs. apply Pos.eqb_eq in Hm. apply Z.eqb_eq in He.
    congruence.
Qed.

Lemma rangeZ_forallb (f : Z -> bool) (lo : Z) (n : nat) :
  forallb f (rangeZ lo n) = true ->
  forall x, (lo <= x < lo + Z.of_nat n)%Z -> f x = true.
Proof.
  intros H x Hx. rewrite forallb_forall in H. apply H.
  unfold rangeZ. apply in_map_iff. exists (Z.to_nat (x - lo)).
  split; [lia|]. apply in_seq. lia.
Qed.

Lemma rangeZ_forallb2 (f : Z -> Z -> bool) (lo1 lo2 : Z) (n1 n2 : nat) :
  forallb (fun x => forallb (fun y => f x y) (rangeZ lo2 n2)) (rangeZ lo1 n1)
  = true ->
  forall x y, (lo1 <= x < lo1 + Z.of_nat n1)%Z ->
              (lo2 <= y < lo2 + Z.of_nat n2)%Z -> f x y = true.
Proof.
  intros H x y Hx Hy.
  apply (rangeZ_forallb (fun y => f x y) lo2 n2); [|exact Hy].
  apply (rangeZ_forallb
           (fun x => forallb (fun y => f x y) (rangeZ lo2 n2)) lo1 n1 H x Hx).
Qed.

Lemma rangeZ_forallb3 (f : Z -> Z -> Z -> bool) (lo1 lo2 lo3 : Z)
    (n1 n2 n3 : nat) :
  forallb (fun x => forallb (fun y => forallb (fun z => f x y z)
                                              (rangeZ lo3 n3))
                            (rangeZ lo2 n2))
          (rangeZ lo1 n1) = true ->
  forall x y z, (lo1 <= x < lo1 + Z.of_nat n1)%Z ->
                (lo2 <= y < lo2 + Z.of_nat n2)%Z ->
                (lo3 <= z < lo3 + Z.of_nat n3)%Z -> f x y z = true.
Proof.
  intros H x y z Hx Hy Hz.
  apply (rangeZ_forallb2 (fun y z => f x y z) lo2 lo3 n2 n3); [|exact Hy|exact Hz].
  apply (rangeZ_forallb
           (fun x => forallb (fun y => forallb (fun z => f x y z)
                                               (rangeZ lo3 n3))
                             (rangeZ lo2 n2)) lo1 n1 H x Hx).
Qed.

(** The three checks hold at every point of the grid. *)
Lemma gridAxes_checked :
  forallb (fun c => forallb (fun b => forallb (fun h => gridAxisOK c b h)
                                              (rangeZ 0 17))
                            (rangeZ (-16) 33))
          (rangeZ (-16) 33) = true.
Proof. vm_compute. reflexivity. Qed.

Lemma gridDifferences_checked :
  forallb (fun c => forallb (fun q => gridDifferenceOK c q) (rangeZ (-16) 33))
          (rangeZ (-16) 33) = true.
Proof. vm_compute. reflexivity. Qed.

Lemma gridLengths_checked :
  forallb (fun x => forallb (fun y => forallb (fun z => gridLengthOK x y z)
                                              (rangeZ (-32) 65))
                            (rangeZ (-32) 65))
          (rangeZ (-32) 65) = true.
Proof. vm_compute. reflexivity. Qed.

(** On integer data the source's closest point is the clamp of exact
    arithmetic. *)
Lemma grid_axis (c b h : Z) :
  (-16 <= c <= 16)%Z -> (-16 <= b <= 16)%Z -> (0 <= h <= 16)%Z ->
  closestAxis (F32.of_Z c) (F32.of_Z b) (F32.of_Z (2 * h) * p0_5) =
  F32.of_Z (clampZ c (b - h) (b + h)).
Proof.
  intros Hc Hb Hh. apply sameDatum_eq.
  change (gridAxisOK c b h = true).
  apply (rangeZ_forallb3 gridAxisOK (-16) (-16) 0 33 33 17 gridAxes_checked);
    cbn [Z.of_nat Pos.of_succ_nat Pos.succ]; lia.
Qed.

Lemma clampZ_range (c b h : Z) :
  (-16 <= c <= 16)%Z -> (-16 <= b <= 16)%Z -> (0 <= h <= 16)%Z ->
  (-16 <= clampZ c (b - h) (b + h) <= 16)%Z.
Proof.
  intros Hc Hb Hh. unfold clampZ.
  destruct (Z.ltb_spec c (b - h)); [lia|].
  destruct (Z.ltb_spec (b + h) c); lia.
Qed.

Lemma grid_difference (c q : Z) :
  (-16 <= c <= 16)%Z -> (-16 <= q <= 16)%Z ->
  F32.of_Z c - F32.of_Z q = F32.of_Z (c - q).
Proof.
  intros Hc Hq. apply sameDatum_eq.
  change (gridDifferenceOK c q = true).
  apply (rangeZ_forallb2 gridDifferenceOK (-16) (-16) 33 33
           gridDifferences_checked);
    cbn [Z.of_nat Pos.of_succ_nat Pos.succ]; lia.
Qed.

(** On integer coordinates whose squares sum to a square, [glm::length]
    is the Euclidean length. *)
Lemma grid_length (x y z k : Z) :
  (-32 <= x <= 32)%Z -> (-32 <= y <= 32)%Z -> (-32 <= z <= 32)%Z ->
  (0 <= k)%Z -> (x * x + y * y + z * z = k * k)%Z ->
  Vec3.length (gridPoint x y z) = F32.of_Z k.
Proof.
  intros Hx Hy Hz Hk E. apply sameDatum_eq.
  assert (G : gridLengthOK x y z = true).
  { apply (rangeZ_forallb3 gridLengthOK (-32) (-32) (-32) 65 65 65
             gridLengths_checked);
      cbn [Z.of_nat Pos.of_succ_nat Pos.succ]; lia. }
  unfold gridLengthOK in G.
  rewrite E in G. rewrite Z.sqrt_square in G by exact Hk.
  rewrite Z.eqb_refl in G. exact G.
Qed.

(** The sphere-box computation on the integer grid. *)
Lemma grid_distance (cx cy cz bx by_ bz hx hy hz k : Z) :
  (-16 <= cx <= 16)%Z -> (-16 <= cy <= 16)%Z -> (-16 <= cz <= 16)%Z ->
  (-16 <= bx <= 16)%Z -> (-16 <= by_ <= 16)%Z -> (-16 <= bz <= 16)%Z ->
  (0 <= hx <= 16)%Z -> (0 <= hy <= 16)%Z -> (0 <= hz <= 16)%Z ->
  (0 <= k)%Z ->
  ((cx - clampZ cx (bx - hx) (bx + hx)) * (cx - clampZ cx (bx - hx) (bx + hx))
   + (cy - clampZ cy (by_ - hy) (by_ + hy)) * (cy - clampZ cy (by_ - hy) (by_ + hy))
   + (cz - clampZ cz (bz - hz) (bz + hz)) * (cz - clampZ cz (bz - hz) (bz + hz))
   = k * k)%Z ->
  closestPoint (gridPoint cx cy cz) (gridPoint bx by_ bz)
               (gridPoint (2 * hx) (2 * hy) (2 * hz)) =
  gridPoint (clampZ cx (bx - hx) (bx + hx)) (clampZ cy (by_ - hy) (by_ + hy))
            (clampZ cz (bz - hz) (bz + hz)) /\
  Vec3.length
    (Vec3.sub (gridPoint cx cy cz)
              (closestPoint (gridPoint cx cy cz) (gridPoint bx by_ bz)
                            (gridPoint (2 * hx) (2 * hy) (2 * hz)))) =
  F32.of_Z k.
Proof.
  intros Hcx Hcy Hcz Hbx Hby Hbz Hhx Hhy Hhz Hk E.
  assert (Q : closestPoint (gridPoint cx cy cz) (gridPoint bx by_ bz)
                (gridPoint (2 * hx) (2 * hy) (2 * hz)) =
              gridPoint (clampZ cx (bx - hx) (bx + hx))
                        (clampZ cy (by_ - hy) (by_ + hy))
                        (clampZ cz (bz - hz) (bz + hz))).
  { unfold closestPoint, gridPoint. cbn [Vec3.scale_r vx vy vz].
    rewrite !grid_axis by assumption. reflexivity. }
  split; [exact Q|]. rewrite Q.
  pose proof (clampZ_range cx bx hx Hcx Hbx Hhx) as Rx.
  pose proof (clampZ_range cy by_ hy Hcy Hby Hhy) as Ry.
  pose proof (clampZ_range cz bz hz Hcz Hbz Hhz) as Rz.
  unfold gridPoint at 1 2. unfold Vec3.sub. cbn [vx vy vz].
  rewrite !grid_difference by assumption.
  apply (grid_length _ _ _ k); lia.
Qed.

(** C2 (as amended).  For every sphere centre, radius, box centre and
    box scale, [objectCollision] takes half-extents of scale times one
    half, takes
    on each axis the point [max(centre - half, min(c, centre + half))],
    and answers true exactly when the distance from the sphere centre to
    that point, as binary32 arithmetic gives it (the square root of the
    sum of the squared coordinate differences, every operation rounded
    to nearest), is strictly below the radius, so that a radius not
    above that distance (tangency included) gives false.  On every axis
    whose low face is not above its high face the point taken lies
    between the faces and, for a sphere coordinate that is a number, is
    that coordinate clamped into the interval; on an axis whose high
    face is below its low face it is the low face.  On a box well formed
    on all three axes the answer is that of the specification's wording
    [sphereIntersectsBox], and every box with a finite centre and a
    scale whose components are all at least zero is well formed.  When
    the sphere centre, the box centre and the half-extents are integers
    of magnitude at most sixteen and the Euclidean distance from the
    sphere centre to its clamp into the box is an integer [k], the point
    taken is that clamp, the computed distance is exactly [k], and the
    answer is [k < radius]. *)
Theorem objectCollision_rounded_distance :
  (forall (c : vec3) (r : F32.float) (b s : vec3),
    let half := Vec3.scale_r s p0_5 in
    let lo := Vec3.sub b half in
    let hi := Vec3.add b half in
    let q := closestPoint c b s in
    q = mkVec3 (F32.fmax (vx lo) (F32.fmin (vx c) (vx hi)))
               (F32.fmax (vy lo) (F32.fmin (vy c) (vy hi)))
               (F32.fmax (vz lo) (F32.fmin (vz c) (vz hi))) /\
    objectCollision c r b s = (roundedDistance c q <? r) /\
    ((r <=? roundedDistance c q) = true -> objectCollision c r b s = false) /\
    (forall axis : vec3 -> F32.float,
       axis = vx \/ axis = vy \/ axis = vz ->
       ((axis lo <=? axis hi) = true ->
          (axis lo <=? axis q) = true /\ (axis q <=? axis hi) = true /\
          (F32.is_nan (axis c) = false ->
           F32.same_value (axis q)
                          (clampInto (axis c) (axis lo) (axis hi)))) /\
       ((axis hi <? axis lo) = true -> axis q = axis lo)) /\
    (wellFormedBox b s = true ->
       objectCollision c r b s = sphereIntersectsBox c r b s) /\
    (properBox b s = true -> wellFormedBox b s = true)) /\
  (forall (cx cy cz bx by_ bz hx hy hz k : Z) (r : F32.float),
    (-16 <= cx <= 16)%Z -> (-16 <= cy <= 16)%Z -> (-16 <= cz <= 16)%Z ->
    (-16 <= bx <= 16)%Z -> (-16 <= by_ <= 16)%Z -> (-16 <= bz <= 16)%Z ->
    (0 <= hx <= 16)%Z -> (0 <= hy <= 16)%Z -> (0 <= hz <= 16)%Z ->
    let qx := clampZ cx (bx - hx) (bx + hx) in
    let qy := clampZ cy (by_ - hy) (by_ + hy) in
    let qz := clampZ cz (bz - hz) (bz + hz) in
    (0 <= k)%Z ->
    ((cx - qx) * (cx - qx) + (cy - qy) * (cy - qy) + (cz - qz) * (cz - qz)
     = k * k)%Z ->
    let c := gridPoint cx cy cz in
    let b := gridPoint bx by_ bz in
    let s := gridPoint (2 * hx) (2 * hy) (2 * hz) in
    closestPoint c b s = gridPoint qx qy qz /\
    roundedDistance c (closestPoint c b s) = F32.of_Z k /\
    objectCollision c r b s = (F32.of_Z k <? r)).
Proof.
  split.
  - intros c r b s half lo hi q.
    split; [reflexivity|].
    split; [reflexivity|].
    split; [intros H; apply leb_not_ltb; exact H|].
    split; [|split; [apply objectCollision_wellFormed|
                     intros H; apply holdsCentre_wellFormed,
                                 properBox_holdsCentre; exact H]].
    intros axis Haxis.
    assert (Hq : axis q = F32.fmax (axis lo) (F32.fmin (axis c) (axis hi)))
      by (destruct Haxis as [->|[->| ->]]; reflexivity).
    rewrite Hq. split.
    + intros Hwf. destruct (closest_within (axis c) _ _ Hwf) as [H1 H2].
      split; [exact H1|]. split; [exact H2|].
      intros Hnan. apply closest_is_clamp; assumption.
    + apply closest_inverted.
  - intros cx cy cz bx by_ bz hx hy hz k r Hcx Hcy Hcz Hbx Hby Hbz Hhx Hhy Hhz
           qx qy qz Hk E c b s.
    destruct (grid_distance cx cy cz bx by_ bz hx hy hz k) as [Q L];
      try assumption.
    split; [exact Q|]. split.
    + exact L.
    + unfold objectCollision. fold c b s in L. rewrite L. reflexivity.
Qed.

Lemma objectCollision_rounded_distance_witness :
  objectCollision tangentPoint p0_5 originPoint unitScale = false /\
  objectCollision originPoint p0_5 originPoint unitScale =
  sphereIntersectsBox originPoint p0_5 originPoint unitScale /\
  F32.same_value (vx (closestPoint tangentPoint originPoint unitScale))
                 (clampInto p1_0 n0_5 p0_5) /\
  vx (closestPoint originPoint originPoint (scale mirroredCube)) = p0_5 /\
  objectCollision (gridPoint 4 5 13) p10_0 (gridPoint 0 0 0) (gridPoint 2 2 2) =
  (F32.of_Z 13 <? p10_0).
Proof.
  split; [|split; [|split; [|split]]].
  - apply (proj1 (proj2 (proj2
             (proj1 objectCollision_rounded_distance
                tangentPoint p0_5 originPoint unitScale)))).
    vm_compute; reflexivity.
  - apply (proj1 (proj2 (proj2 (proj2 (proj2
             (proj1 objectCollision_rounded_distance
                originPoint p0_5 originPoint unitScale)))))).
    apply (proj2 (proj2 (proj2 (proj2 (proj2
             (proj1 objectCollision_rounded_distance
                originPoint p0_5 originPoint unitScale)))))).
    vm_compute; reflexivity.
  - destruct (proj1 objectCollision_rounded_distance
                tangentPoint p0_5 originPoint unitScale)
      as (_ & _ & _ & Haxis & _).
    destruct (Haxis vx (or_introl eq_refl)) as [Hclamp _].
    apply Hclamp; vm_compute; reflexivity.
  - destruct (proj1 objectCollision_rounded_distance
                originPoint p0_5 originPoint (scale mirroredCube))
      as (_ & _ & _ & Haxis & _).
    destruct (Haxis vx (or_introl eq_refl)) as [_ Hlow].
    apply Hlow; vm_compute; reflexivity.
  - apply (proj2 objectCollision_rounded_distance
             4%Z 5%Z 13%Z 0%Z 0%Z 0%Z 1%Z 1%Z 1%Z 13%Z p10_0);
      try lia; vm_compute; reflexivity.
Defined.

(** The computed distance is not the Euclidean one outside the range
    of binary32 squares, and the point taken is not a clamp on an
    inverted interval.  At 2^64 along x from the unit box the Euclidean
    distance is below the radius 2^100, yet the square overflows, the
    computed distance is infinite and the answer is false.  At 2^-80
    along x from a box shrunk to the origin the Euclidean distance is
    not below the radius 2^-100, yet the square underflows, the computed
    distance is zero and the answer is true.  For the unit cube mirrored
    along x the point taken from the centre has x = 0.5 although the
    high face is at -0.5; and on the box of scale (-2, -2, -2) the
    source answers true where clamping into the interval answers
    false. *)
Lemma euclidean_distance_not_decisive :
  (properBox originPoint unitScale = true /\
   euclideanBelow hugePoint (closestPoint hugePoint originPoint unitScale)
                  hugeRadius = Some true /\
   objectCollision hugePoint hugeRadius originPoint unitScale = false) /\
  (properBox originPoint zeroScale = true /\
   euclideanBelow tinyPoint (closestPoint tinyPoint originPoint zeroScale)
                  tinyRadius = Some false /\
   objectCollision tinyPoint tinyRadius originPoint zeroScale = true) /\
  (vx (closestPoint originPoint originPoint (scale mirroredCube)) = p0_5 /\
   vx (boxHigh originPoint (scale mirroredCube)) = n0_5 /\
   objectCollision twoAlongX p2_0 originPoint invertedScale = true /\
   sphereIntersectsBox twoAlongX p2_0 originPoint invertedScale = false).
Proof. repeat split; vm_compute; reflexivity. Qed.

End Distance.
